(** * Atlas layout search: pack_images.py and pack_imagesv2.py

    A shallow embedding of the two layout searches of the repository and
    the properties of them that the specification states.

    - [PackImagesV2] embeds the exhaustive search of [pack_imagesv2.py]:
      [generate_layouts], its dense and sparse filters,
      [select_better_layout], [compute_layout] and the shortfall report of
      [pack_animation].
    - [PackImages] embeds the simulated annealing of [pack_images.py]:
      [simulate_annealing], [make_initial_state], [state_valid],
      [mutate_state], [compute_energy] and [compute_layout].

    Python integers are unbounded and are modelled by [Z]; Python floats are
    IEEE 754 binary64 and are modelled by the primitive floats of Rocq,
    which are the same format with the same rounding. *)

From Stdlib Require Import ZArith List Lia Bool Permutation FinFun Sorted.
From Stdlib Require Import Floats.
Import ListNotations.

Set Warnings "-inexact-float".
Open Scope Z_scope.

(** * Python values shared by the two scripts *)

(** The exceptions the modelled code can raise. *)
Inductive exn : Type :=
| ZeroDivisionError
| OverflowError
| ValueError.

(** A computation either returns a value or raises. *)
Inductive result (A : Type) : Type :=
| Ok (a : A)
| Raise (e : exn).

Arguments Ok {A} a.
Arguments Raise {A} e.

Definition bind {A B : Type} (r : result A) (k : A -> result B) : result B :=
  match r with
  | Ok a => k a
  | Raise e => Raise e
  end.

Notation "x <- r ;; k" := (bind r (fun x => k))
  (at level 61, r at next level, right associativity).

(** [Animation = namedtuple("Animation", ("frame_width", "frame_height",
    "frame_count", "fps"))], the same in both scripts.  The first two fields
    come from [image.size] and the third from [len(image_paths)], so they are
    integers; [fps] is parsed with [type=float]. *)
Record Animation : Type := mkAnimation {
  frame_width : Z;
  frame_height : Z;
  frame_count : Z;
  fps : float
}.

(** [Layout = namedtuple(..., ("columns", "rows"))], the same fields in both
    scripts. *)
Record Layout : Type := mkLayout {
  columns : Z;
  rows : Z
}.

(** [range(start, stop)] over integers. *)
Definition range (start stop : Z) : list Z :=
  map (fun i => start + Z.of_nat i) (seq 0 (Z.to_nat (stop - start))).

(** * pack_imagesv2.py: the exhaustive search *)

Module PackImagesV2.

Definition MAX_SIDE_LENGTH : Z := 11000.

(** [int(MAX_SIDE_LENGTH / d)] for an integer [d].  The true division raises
    on [d = 0].  Otherwise its float result is the correctly rounded quotient
    and [int] truncates it toward zero; the rounding never crosses an
    integer (a quotient that is not an integer is at least [1/11000] away
    from the next one when [|d| <= 11000], and is below one in magnitude
    beyond), so the result is the truncated exact quotient, [Z.quot]. *)
Definition int_of_truediv (n d : Z) : result Z :=
  if d =? 0 then Raise ZeroDivisionError else Ok (Z.quot n d).

(** The generator is consumed to its end by every caller, so it is modelled
    by the list of what it yields, in order; the division happens when the
    first element is requested, before anything is yielded. *)
Definition generate_layouts (animation : Animation) : result (list Layout) :=
  max_columns <- int_of_truediv MAX_SIDE_LENGTH (frame_width animation) ;;
  max_rows <- int_of_truediv MAX_SIDE_LENGTH (frame_height animation) ;;
  Ok (flat_map
        (fun columns => map (fun rows => mkLayout columns rows)
                            (range 1 (max_rows + 1)))
        (range 1 (max_columns + 1))).

Definition is_sparse (animation : Animation) (layout : Layout) : bool :=
  columns layout * rows layout >? frame_count animation.

Definition is_dense (animation : Animation) (layout : Layout) : bool :=
  columns layout * rows layout <=? frame_count animation.

Definition generate_sparse_layouts (animation : Animation)
  : result (list Layout) :=
  layouts <- generate_layouts animation ;;
  Ok (filter (is_sparse animation) layouts).

Definition generate_dense_layouts (animation : Animation)
  : result (list Layout) :=
  layouts <- generate_layouts animation ;;
  Ok (filter (is_dense animation) layouts).

Definition frame_delta (animation : Animation) (layout : Layout) : Z :=
  Z.abs (columns layout * rows layout - frame_count animation).

Definition side_length_delta (animation : Animation) (layout : Layout) : Z :=
  Z.abs (columns layout * frame_width animation
         - rows layout * frame_height animation).

Definition select_better_layout (animation : Animation)
    (layout1 layout2 : Layout) : Layout :=
  let layout1_frame_delta := frame_delta animation layout1 in
  let layout2_frame_delta := frame_delta animation layout2 in
  if layout1_frame_delta <? layout2_frame_delta then layout1
  else if layout1_frame_delta >? layout2_frame_delta then layout2
  else
    let layout1_side_length_delta := side_length_delta animation layout1 in
    let layout2_side_length_delta := side_length_delta animation layout2 in
    if layout1_side_length_delta <? layout2_side_length_delta then layout1
    else if layout1_side_length_delta >? layout2_side_length_delta then layout2
    else layout1.

(** One turn of the [for layout in possible_layouts] loop. *)
Definition keep_better (animation : Animation) (best_layout : option Layout)
    (layout : Layout) : option Layout :=
  match best_layout with
  | None => Some layout
  | Some best => Some (select_better_layout animation best layout)
  end.

Definition compute_layout (animation : Animation) (sparse : bool)
  : result (option Layout) :=
  possible_layouts <-
    (if sparse then generate_sparse_layouts animation
     else generate_dense_layouts animation) ;;
  Ok (fold_left (keep_better animation) possible_layouts None).

(** What [pack_animation] decides between computing the layout and packing
    the frames: the messages it prints, as data. *)
Inductive shortfall_report : Type :=
| NoSuitableLayout
    (* "Couldn't find a suitable layout." and exit(1) *)
| NotShortened (layout : Layout)
    (* nothing printed *)
| RemoveOrAdd (layout : Layout) (removed_frame_count add_frame_count : Z)
    (* "Remove {removed} frames or add {add} frames ..." *)
| RemoveOnly (layout : Layout) (removed_frame_count : Z).
    (* "Remove {removed} frames to prevent ..." *)

(** [pack_animation] from the call of [compute_layout] to the end of the
    shortfall messages, for an animation already built from the frames. *)
Definition pack_animation (animation : Animation) : result shortfall_report :=
  let frame_count := frame_count animation in
  layout <- compute_layout animation false ;;
  match layout with
  | None => Ok NoSuitableLayout
  | Some layout =>
      let packed_frame_count := rows layout * columns layout in
      if packed_frame_count <? frame_count then
        let removed_frame_count := frame_count - packed_frame_count in
        sparse_layout <- compute_layout animation true ;;
        match sparse_layout with
        | Some sparse_layout =>
            let add_frame_count :=
              rows sparse_layout * columns sparse_layout - frame_count in
            Ok (RemoveOrAdd layout removed_frame_count add_frame_count)
        | None => Ok (RemoveOnly layout removed_frame_count)
        end
      else Ok (NotShortened layout)
  end.

End PackImagesV2.

(** * pack_images.py: simulated annealing *)

Module PackImages.

(** ** The numbers of the temperature schedule

    [temp_max] is the integer [15] and [temp_min] the float [0.001]; the
    temperature is an integer in the first turn of the loop and a float from
    then on.  Both kinds are kept, because an integer divided by an integer
    and an integer divided by a float overflow at different sizes. *)
Inductive pynum : Type :=
| PyInt (z : Z)
| PyFloat (f : float).

(** The least magnitude of an integer that has no float: it rounds (to
    nearest, ties to even) to [2^1024].  Converting such an integer raises
    [OverflowError]. *)
Definition DBL_OVERFLOW : Z := 2 ^ 1024 - 2 ^ 970.

(** The integer [z] as a spec float with exponent zero. *)
Definition Z2SF (z : Z) : spec_float :=
  match z with
  | Z0 => S754_zero false
  | Zpos m => S754_finite false m 0
  | Zneg m => S754_finite true m 0
  end.

(** [float(z)]: the nearest float, or [OverflowError]. *)
Definition float_of_int (z : Z) : result float :=
  if DBL_OVERFLOW <=? Z.abs z then Raise OverflowError
  else Ok (SF2Prim (binary_normalize prec emax z 0 false)).

(** [int(f)]: truncation toward zero. *)
Definition int_of_float (f : float) : result Z :=
  match Prim2SF f with
  | S754_nan => Raise ValueError
  | S754_infinity _ => Raise OverflowError
  | S754_zero _ => Ok 0
  | S754_finite s m e =>
      let magnitude :=
        if 0 <=? e then Z.pos m * 2 ^ e else Z.pos m / 2 ^ (- e) in
      Ok (if s then - magnitude else magnitude)
  end.

(** Python compares an integer with a float by their exact values. *)
Definition compare_int_float (z : Z) (f : float) : option comparison :=
  match Prim2SF f with
  | S754_nan => None
  | S754_infinity s => Some (if s then Gt else Lt)
  | S754_zero _ => Some (z ?= 0)
  | S754_finite s m e =>
      let mantissa := if s then Z.neg m else Z.pos m in
      Some (if 0 <=? e then z ?= mantissa * 2 ^ e
            else z * 2 ^ (- e) ?= mantissa)
  end.

(** [a > b]. *)
Definition py_gt (a b : pynum) : bool :=
  match a, b with
  | PyInt x, PyInt y => x >? y
  | PyInt x, PyFloat g =>
      match compare_int_float x g with Some Gt => true | _ => false end
  | PyFloat f, PyInt y =>
      match compare_int_float y f with Some Lt => true | _ => false end
  | PyFloat f, PyFloat g => PrimFloat.ltb g f
  end.

(** [a - b]; an integer operand of a float operation is converted first. *)
Definition py_sub (a b : pynum) : result pynum :=
  match a, b with
  | PyInt x, PyInt y => Ok (PyInt (x - y))
  | PyInt x, PyFloat g =>
      f <- float_of_int x ;; Ok (PyFloat (PrimFloat.sub f g))
  | PyFloat f, PyInt y =>
      g <- float_of_int y ;; Ok (PyFloat (PrimFloat.sub f g))
  | PyFloat f, PyFloat g => Ok (PyFloat (PrimFloat.sub f g))
  end.

(** [n / d] for an integer [n].  Integer by integer is the correctly rounded
    quotient and raises [OverflowError] when that is beyond the floats;
    integer by float converts the integer first. *)
Definition int_truediv (n : Z) (d : pynum) : result float :=
  match d with
  | PyInt d =>
      if d =? 0 then Raise ZeroDivisionError
      else if DBL_OVERFLOW * Z.abs d <=? Z.abs n then Raise OverflowError
      else Ok (SF2Prim (SFdiv prec emax (Z2SF n) (Z2SF d)))
  | PyFloat g =>
      f <- float_of_int n ;;
      if PrimFloat.eqb g 0 then Raise ZeroDivisionError
      else Ok (PrimFloat.div f g)
  end.

(** [f / d] for a float [f] and an integer [d]. *)
Definition float_truediv_int (f : float) (d : Z) : result float :=
  g <- float_of_int d ;;
  if d =? 0 then Raise ZeroDivisionError else Ok (PrimFloat.div f g).

(** [math.sqrt(n)] for an integer [n]. *)
Definition math_sqrt (n : Z) : result float :=
  x <- float_of_int n ;;
  if n <? 0 then Raise ValueError else Ok (PrimFloat.sqrt x).

(** The largest float whose exponential is a float; [math.exp] raises
    [OverflowError] on every finite float above it. *)
Definition EXP_MAX_ARG : float := 0x1.62e42fefa39efp+9%float.

(** ** The random source

    The module-level generator of [random] is drawn from three times in a
    turn of the loop, at most.  A [Draw] holds what one turn obtains; a run
    is driven by the sequence of its draws. *)
Inductive mutation : Type :=
| increment   (* lambda x: x + 1 *)
| decrement.  (* lambda x: x - 1 *)

Definition apply_mutation (m : mutation) (x : Z) : Z :=
  match m with
  | increment => x + 1
  | decrement => x - 1
  end.

Record Draw : Type := mkDraw {
  (* random.choice(mutations) *)
  choice : mutation;
  (* random.randint(0, 1), as its truth value *)
  randint : bool;
  (* whether math.exp(x) > random.random() for the negative exponent x of
     this turn: the exponential is then in [0, 1] and the uniform draw in
     [0, 1), so the draw decides; both outcomes are kept for every such x *)
  exp_gt_random : bool
}.

(** ** The generic optimizer

    In a module of its own: the fields of [AnnealingParams] have the names
    of the layout functions below. *)

Module Engine.

Section Annealing.

Context {State : Type}.

(** [AnnealingParams]; the mutation draws random numbers and takes the draw
    of the turn, and energies are integers as in [compute_energy]. *)
Record AnnealingParams : Type := mkAnnealingParams {
  initial_state : State;
  mutate_state : State -> Draw -> State;
  compute_energy : State -> Z;
  temp_max : pynum;
  temp_min : pynum;
  cool_temp : pynum -> result pynum
}.

(** The test
    [next_energy < current_energy
     or math.exp((current_energy - next_energy) / current_temp)
        > random.random()].
    The second operand is evaluated when the energy did not decrease; its
    exponent is zero for equal energies (the exponential is [1.0], above
    every uniform draw), negative for a positive temperature, and positive
    for a negative one (the exponential is above one unless it overflows);
    nothing is above a NaN. *)
Definition accepts (current_energy next_energy : Z) (current_temp : pynum)
    (draw : Draw) : result bool :=
  if next_energy <? current_energy then Ok true
  else
    x <- int_truediv (current_energy - next_energy) current_temp ;;
    if current_energy - next_energy =? 0 then Ok true
    else if py_gt current_temp (PyInt 0) then Ok (exp_gt_random draw)
    else if PrimFloat.is_nan x then Ok false
    else if PrimFloat.ltb EXP_MAX_ARG x && negb (PrimFloat.is_infinity x)
         then Raise OverflowError
    else Ok true.

(** The variables of the loop. *)
Record loop_vars : Type := mkVars {
  current_state : State;
  current_energy : Z;
  best_state : State;
  best_energy : Z;
  current_temp : pynum
}.

(** The body of the [while] loop. *)
Definition anneal_step (params : AnnealingParams) (draw : Draw)
    (v : loop_vars) : result loop_vars :=
  let next_state := mutate_state params (current_state v) draw in
  let next_energy := compute_energy params next_state in
  accepted <- accepts (current_energy v) next_energy (current_temp v) draw ;;
  let v1 :=
    if accepted then
      if next_energy <? best_energy v
      then mkVars next_state next_energy next_state next_energy
                  (current_temp v)
      else mkVars next_state next_energy (best_state v) (best_energy v)
                  (current_temp v)
    else v in
  temp <- cool_temp params (current_temp v1) ;;
  Ok (mkVars (current_state v1) (current_energy v1) (best_state v1)
             (best_energy v1) temp).

(** The [while current_temp > params.temp_min] loop; [fuel] bounds the
    number of tests of the condition, [None] means it ran out, and the
    [turn]-th turn uses the [turn]-th draw. *)
Fixpoint anneal_loop (fuel : nat) (params : AnnealingParams)
    (draws : nat -> Draw) (turn : nat) (v : loop_vars)
  : option (result State) :=
  match fuel with
  | O => None
  | S fuel' =>
      if py_gt (current_temp v) (temp_min params) then
        match anneal_step params (draws turn) v with
        | Raise e => Some (Raise e)
        | Ok v' => anneal_loop fuel' params draws (S turn) v'
        end
      else Some (Ok (best_state v))
  end.

Definition simulate_annealing (fuel : nat) (params : AnnealingParams)
    (draws : nat -> Draw) : option (result State) :=
  let current_state := initial_state params in
  let current_energy := compute_energy params current_state in
  anneal_loop fuel params draws 0%nat
    (mkVars current_state current_energy current_state current_energy
            (temp_max params)).

End Annealing.

Arguments AnnealingParams State : clear implicits.
Arguments loop_vars State : clear implicits.

End Engine.

(** ** The layout instance *)

Definition make_initial_state (animation : Animation) : result Layout :=
  let pixels :=
    frame_width animation * frame_height animation * frame_count animation in
  side_length <- math_sqrt pixels ;;
  columns <-
    (q <- float_truediv_int side_length (frame_width animation) ;;
     int_of_float q) ;;
  rows <-
    (q <- float_truediv_int side_length (frame_height animation) ;;
     int_of_float q) ;;
  Ok (mkLayout columns rows).

Definition state_valid (state : Layout) (animation : Animation) : bool :=
  if (rows state =? 0) || (columns state =? 0) then false
  else
    let width := columns state * frame_width animation in
    let height := rows state * frame_height animation in
    if (width >? 11000) || (height >? 11000) then false
    else rows state * columns state <=? frame_count animation.

Definition mutate_state (state : Layout) (animation : Animation)
    (draw : Draw) : Layout :=
  let mutation := apply_mutation (choice draw) in
  let next_state :=
    if randint draw
    then mkLayout (mutation (columns state)) (rows state)
    else mkLayout (columns state) (mutation (rows state)) in
  if state_valid next_state animation then next_state else state.

Definition compute_energy (state : Layout) (animation : Animation) : Z :=
  frame_count animation - rows state * columns state.

(** The parameters [compute_layout] builds, for any initial state. *)
Definition layout_params (animation : Animation) (initial : Layout)
  : Engine.AnnealingParams Layout :=
  {| Engine.initial_state := initial;
     Engine.mutate_state := fun state => mutate_state state animation;
     Engine.compute_energy := fun state => compute_energy state animation;
     Engine.temp_max := PyInt 15;
     Engine.temp_min := PyFloat 0.001;
     Engine.cool_temp := fun temp => py_sub temp (PyFloat 0.001) |}.

Definition compute_layout (fuel : nat) (animation : Animation)
    (draws : nat -> Draw) : option (result Layout) :=
  match make_initial_state animation with
  | Raise e => Some (Raise e)
  | Ok initial =>
      Engine.simulate_annealing fuel (layout_params animation initial) draws
  end.

End PackImages.

(** * The frame placement of pack_animation

    Both scripts paste the frames with the same loop.  Opening, cropping and
    saving images is outside the embedding; what is embedded is the
    arithmetic of the loop: how many frames it visits and the region it
    pastes each one into. *)

Module Compositor.

(** A region [(left, upper, right, lower)], as [packed.paste] takes it. *)
Definition box : Type := (Z * Z * Z * Z)%type.

(** [len(image_paths[:stop])] for a list of [len] paths: a negative stop
    counts from the end. *)
Definition slice_length (len stop : Z) : Z :=
  if stop <? 0 then Z.max (len + stop) 0 else Z.min len stop.

(** [int(index / columns)].  The float quotient of two integers is the
    correctly rounded one; below [2^53] in magnitude the dividend makes the
    rounding stay on the same side of every integer, so the truncation is
    the truncated exact quotient.  Beyond, the float is computed. *)
Definition int_of_truediv (index columns : Z) : result Z :=
  if Z.abs index <? 2 ^ 53 then
    if columns =? 0 then Raise ZeroDivisionError
    else Ok (Z.quot index columns)
  else
    q <- PackImages.int_truediv index (PackImages.PyInt columns) ;;
    PackImages.int_of_float q.

(** The body of the loop for one [index]: the region the frame is pasted
    into.  [%] has the sign of the divisor, as [Z.modulo]. *)
Definition frame_box (animation : Animation) (layout : Layout) (index : Z)
  : result box :=
  row <- int_of_truediv index (columns layout) ;;
  let column := index mod columns layout in
  let x := column * frame_width animation in
  let y := row * frame_height animation in
  Ok (x, y, x + frame_width animation, y + frame_height animation).

Definition packed_size (animation : Animation) (layout : Layout) : Z * Z :=
  (columns layout * frame_width animation,
   rows layout * frame_height animation).

Fixpoint paste_frames (animation : Animation) (layout : Layout)
    (indices : list Z) : result (list box) :=
  match indices with
  | [] => Ok []
  | index :: rest =>
      region <- frame_box animation layout index ;;
      regions <- paste_frames animation layout rest ;;
      Ok (region :: regions)
  end.

(** [for index, path in enumerate(image_paths[:packed_frame_count])], for
    the [frame_count] paths the animation was built from: the regions
    pasted, in order. *)
Definition pasted_regions (animation : Animation) (layout : Layout)
  : result (list box) :=
  let packed_frame_count := rows layout * columns layout in
  paste_frames animation layout
    (range 0 (slice_length (frame_count animation) packed_frame_count)).

End Compositor.

(** * Scenarios and notions of the statements *)

(** The descriptors of the concrete scenarios. *)
Definition animation_100_10 : Animation := mkAnimation 100 100 10 24%float.
Definition animation_100_11 : Animation := mkAnimation 100 100 11 24%float.
Definition animation_2000_11 : Animation := mkAnimation 2000 2000 11 24%float.
Definition animation_4000_3 : Animation := mkAnimation 4000 4000 3 24%float.
Definition animation_wide : Animation := mkAnimation 11001 100 10 24%float.
Definition animation_high : Animation := mkAnimation 100 11001 10 24%float.
Definition animation_2_1_1 : Animation := mkAnimation 2 1 1 24%float.
Definition animation_1000_10_1 : Animation := mkAnimation 1000 10 1 24%float.

(** The sequence the exhaustive [compute_layout] folds over. *)
Definition possible_layouts (a : Animation) (sparse : bool)
  : result (list Layout) :=
  if sparse then PackImagesV2.generate_sparse_layouts a
  else PackImagesV2.generate_dense_layouts a.

Section AnnealingNotions.

Import PackImages.

(** Sequences of draws: every turn tries one more column, or one column
    less with the uniform draw below the exponential. *)
Definition draws_more_columns : nat -> Draw :=
  fun _ => mkDraw increment true false.

Definition draws_fewer_columns : nat -> Draw :=
  fun _ => mkDraw decrement true true.

(** Every turn tries one more row, with the uniform draw above the
    exponential. *)
Definition draws_more_rows : nat -> Draw :=
  fun _ => mkDraw increment false false.

(** The temperature can divide an energy difference and makes the exponent
    of the acceptance test negative: it is positive and not zero. *)
Definition temp_usable (t : pynum) : bool :=
  py_gt t (PyInt 0) &&
  match t with
  | PyInt d => negb (d =? 0)
  | PyFloat g => negb (PrimFloat.eqb g 0)
  end.

(** The schedule of [compute_layout] started at [t] leaves the loop within
    [fuel] tests of its condition, every temperature it passes through is
    usable, and the cooling never raises. *)
Fixpoint schedule_ok (fuel : nat) (t : pynum) : bool :=
  match fuel with
  | O => false
  | S fuel' =>
      if py_gt t (PyFloat 0.001) then
        temp_usable t &&
        match py_sub t (PyFloat 0.001) with
        | Ok t' => schedule_ok fuel' t'
        | Raise _ => false
        end
      else true
  end.

(** The number of turns of the loop of that schedule. *)
Fixpoint schedule_turns (fuel : nat) (t : pynum) : option nat :=
  match fuel with
  | O => None
  | S fuel' =>
      if py_gt t (PyFloat 0.001) then
        match py_sub t (PyFloat 0.001) with
        | Ok t' => option_map S (schedule_turns fuel' t')
        | Raise _ => None
        end
      else Some 0%nat
  end.

(** The fuel that lets the schedule of [compute_layout] finish: 15000 turns
    and the last test of the condition. *)
Definition layout_fuel : nat := Z.to_nat 15001.

(** The loop variables of the layout instance, with the energies the loop
    keeps next to the states. *)
Definition layout_vars (a : Animation) (cur best : Layout) (t : pynum)
  : Engine.loop_vars Layout :=
  Engine.mkVars cur (compute_energy cur a) best (compute_energy best a) t.

(** What one turn does to the current and to the best state. *)
Definition turn_relates (a : Animation) (d : Draw)
    (cur best cur' best' : Layout) : Prop :=
  (cur' = cur \/ cur' = mutate_state cur a d) /\
  (best' = best \/
   best' = cur' /\ compute_energy cur' a < compute_energy best a).

(** The state is the initial one or passed [state_valid]. *)
Definition reached (a : Animation) (s0 s : Layout) : Prop :=
  s = s0 \/ state_valid s a = true.

(** The state is the initial one or passed [state_valid] with an energy
    below the initial one. *)
Definition improved (a : Animation) (s0 s : Layout) : Prop :=
  s = s0 \/
  state_valid s a = true /\ compute_energy s a < compute_energy s0 a.

(** The state is the initial one, or its columns have the sign opposite to
    the initial rows and its rows the sign of the initial rows. *)
Definition confined_columns (s0 s : Layout) : Prop :=
  s = s0 \/
  columns s * Z.sgn (rows s0) < 0 /\ rows s * Z.sgn (rows s0) > 0.

(** The same with columns and rows exchanged. *)
Definition confined_rows (s0 s : Layout) : Prop :=
  s = s0 \/
  rows s * Z.sgn (columns s0) < 0 /\ columns s * Z.sgn (columns s0) > 0.

End AnnealingNotions.

Section SearchNotions.

Import PackImagesV2.

(** The order of [select_better_layout]: the distance of the capacity from
    the frame count first, the difference of the packed sides second. *)
Definition better_or_equal (a : Animation) (l1 l2 : Layout) : Prop :=
  frame_delta a l1 < frame_delta a l2 \/
  frame_delta a l1 = frame_delta a l2 /\
  side_length_delta a l1 <= side_length_delta a l2.

Definition strictly_better (a : Animation) (l1 l2 : Layout) : Prop :=
  frame_delta a l1 < frame_delta a l2 \/
  frame_delta a l1 = frame_delta a l2 /\
  side_length_delta a l1 < side_length_delta a l2.

(** [x] is the first best of the sequence: strictly better than everything
    before it and at least as good as everything after it. *)
Definition first_best (a : Animation) (ls : list Layout) (x : Layout)
  : Prop :=
  exists before after,
    ls = before ++ x :: after /\
    Forall (strictly_better a x) before /\
    Forall (better_or_equal a x) after.

(** The order of the generated grid: columns first, rows second. *)
Definition generated_before (l1 l2 : Layout) : Prop :=
  columns l1 < columns l2 \/ columns l1 = columns l2 /\ rows l1 < rows l2.

(** The bounds of the generated grid. *)
Definition max_columns (a : Animation) : Z := Z.quot 11000 (frame_width a).
Definition max_rows (a : Animation) : Z := Z.quot 11000 (frame_height a).


(** A region lies in an image of the given size. *)
Definition box_inside (b : Compositor.box) (size : Z * Z) : Prop :=
  let '(x, y, x', y') := b in
  0 <= x /\ x' <= fst size /\ 0 <= y /\ y' <= snd size.

(** The region of the cell in row [row] and column [column] of the atlas. *)
Definition region_of_cell (a : Animation) (row column : Z) : Compositor.box :=
  (column * frame_width a, row * frame_height a,
   column * frame_width a + frame_width a,
   row * frame_height a + frame_height a).

(** A layout with at least one column and one row. *)
Definition positive_layout (s : Layout) : Prop :=
  1 <= columns s /\ 1 <= rows s.

End SearchNotions.

(** * Properties of the exhaustive search *)

Section ExhaustiveSearch.

Import PackImagesV2.

Lemma In_range (x start stop : Z) :
  In x (range start stop) <-> start <= x < stop.
Proof.
  unfold range. rewrite in_map_iff. split.
  - intros (i & <- & Hi). apply in_seq in Hi. lia.
  - intros Hx. exists (Z.to_nat (x - start)). split; [lia|].
    apply in_seq. lia.
Qed.

Lemma generate_layouts_Ok (a : Animation) (g : list Layout) :
  generate_layouts a = Ok g ->
  frame_width a <> 0 /\ frame_height a <> 0 /\
  g = flat_map
        (fun c => map (fun r => mkLayout c r)
                      (range 1 (Z.quot 11000 (frame_height a) + 1)))
        (range 1 (Z.quot 11000 (frame_width a) + 1)).
Proof.
  unfold generate_layouts, int_of_truediv, MAX_SIDE_LENGTH.
  destruct (Z.eqb_spec (frame_width a) 0); simpl; [discriminate|].
  destruct (Z.eqb_spec (frame_height a) 0); simpl; [discriminate|].
  intros [= <-]. auto.
Qed.

Lemma generate_layouts_In (a : Animation) (g : list Layout) (l : Layout) :
  generate_layouts a = Ok g ->
  In l g <->
  1 <= columns l <= Z.quot 11000 (frame_width a) /\
  1 <= rows l <= Z.quot 11000 (frame_height a).
Proof.
  intros Hg. apply generate_layouts_Ok in Hg as (_ & _ & ->).
  rewrite in_flat_map. split.
  - intros (c & Hc & Hl). apply in_map_iff in Hl as (r & <- & Hr).
    apply In_range in Hc. apply In_range in Hr. simpl. lia.
  - intros [Hc Hr]. exists (columns l). split; [apply In_range; lia|].
    apply in_map_iff. exists (rows l). split; [now destruct l|].
    apply In_range. lia.
Qed.

Lemma is_sparse_not_dense (a : Animation) (l : Layout) :
  is_sparse a l = negb (is_dense a l).
Proof.
  unfold is_sparse, is_dense.
  destruct (Z.gtb_spec (columns l * rows l) (frame_count a)),
           (Z.leb_spec (columns l * rows l) (frame_count a));
    simpl; auto; lia.
Qed.

Lemma filter_complement_Permutation {A : Type} (f g : A -> bool)
    (l : list A) :
  (forall x, g x = negb (f x)) ->
  Permutation (filter f l ++ filter g l) l.
Proof.
  intros Hfg. induction l as [|x l IH]; simpl; [constructor|].
  rewrite Hfg. destruct (f x); simpl.
  - now constructor.
  - symmetry. apply Permutation_cons_app. now symmetry.
Qed.

Lemma select_better_layout_cases (a : Animation) (l1 l2 : Layout) :
  select_better_layout a l1 l2 = l1 \/ select_better_layout a l1 l2 = l2.
Proof.
  unfold select_better_layout.
  repeat match goal with |- context [if ?b then _ else _] => destruct b end;
    auto.
Qed.

Lemma fold_keep_better_Some (a : Animation) (ls : list Layout) (b : Layout) :
  exists x, fold_left (keep_better a) ls (Some b) = Some x /\
            (x = b \/ In x ls).
Proof.
  revert b. induction ls as [|l ls IH]; intros b; simpl.
  - exists b. auto.
  - destruct (IH (select_better_layout a b l)) as (x & Hx & Hin).
    exists x. split; [exact Hx|].
    destruct Hin as [-> | Hin]; [|auto].
    destruct (select_better_layout_cases a b l) as [-> | ->]; auto.
Qed.

Lemma fold_keep_better_None (a : Animation) (ls : list Layout) :
  fold_left (keep_better a) ls None = None <-> ls = [].
Proof.
  destruct ls as [|l ls]; simpl; [tauto|].
  destruct (fold_keep_better_Some a ls l) as (x & -> & _).
  split; discriminate.
Qed.

Lemma fold_keep_better_In (a : Animation) (ls : list Layout) (l : Layout) :
  fold_left (keep_better a) ls None = Some l -> In l ls.
Proof.
  destruct ls as [|l0 ls]; simpl; [discriminate|].
  destruct (fold_keep_better_Some a ls l0) as (x & -> & Hx).
  intros [= <-]. destruct Hx; auto.
Qed.

Lemma compute_layout_fold (a : Animation) (sparse : bool) :
  compute_layout a sparse =
  (ls <- possible_layouts a sparse ;;
   Ok (fold_left (keep_better a) ls None)).
Proof. reflexivity. Qed.

Lemma compute_layout_In (a : Animation) (sparse : bool) (l : Layout) :
  compute_layout a sparse = Ok (Some l) ->
  exists g, generate_layouts a = Ok g /\ In l g /\
            (if sparse then is_sparse a l else is_dense a l) = true.
Proof.
  unfold compute_layout, generate_sparse_layouts, generate_dense_layouts.
  destruct (generate_layouts a) as [g|e] eqn:Hg;
    [|destruct sparse; discriminate].
  intros H. exists g. split; [reflexivity|].
  destruct sparse; simpl in H; injection H as H;
    apply fold_keep_better_In, filter_In in H; exact H.
Qed.

(** C1. For the descriptor with 100 by 100 pixel frames, 10 frames and 24
    frames per second, the dense exhaustive search returns the layout of 2
    columns and 5 rows.  The dense candidates that hold exactly 10 frames
    are (1,10), (2,5), (5,2) and (10,1), met in this order; their side
    length differences are 900, 300, 300 and 900; and of the tied pair the
    comparator keeps (2,5), its first argument, which the columns-outer
    iteration meets first. *)
Theorem compute_layout_scenario_10 :
  compute_layout animation_100_10 false = Ok (Some (mkLayout 2 5)) /\
  (exists dense,
      generate_dense_layouts animation_100_10 = Ok dense /\
      filter (fun l => frame_delta animation_100_10 l =? 0) dense =
      [mkLayout 1 10; mkLayout 2 5; mkLayout 5 2; mkLayout 10 1]) /\
  map (side_length_delta animation_100_10)
      [mkLayout 1 10; mkLayout 2 5; mkLayout 5 2; mkLayout 10 1] =
  [900; 300; 300; 900] /\
  select_better_layout animation_100_10 (mkLayout 2 5) (mkLayout 5 2) =
  mkLayout 2 5.
Proof.
  split; [vm_compute; reflexivity|].
  split; [eexists; split; [reflexivity|vm_compute; reflexivity]|].
  split; reflexivity.
Qed.

(** C3. The comparator returns the candidate with the strictly smaller
    distance of its capacity from the frame count; for equal distances the
    one with the strictly smaller difference of packed width and packed
    height; and for equal distances and equal differences its first
    argument. *)
Theorem select_better_layout_spec (a : Animation) (l1 l2 : Layout) :
  let delta l := Z.abs (columns l * rows l - frame_count a) in
  let squareness l :=
    Z.abs (columns l * frame_width a - rows l * frame_height a) in
  (delta l1 < delta l2 -> select_better_layout a l1 l2 = l1) /\
  (delta l2 < delta l1 -> select_better_layout a l1 l2 = l2) /\
  (delta l1 = delta l2 -> squareness l1 < squareness l2 ->
   select_better_layout a l1 l2 = l1) /\
  (delta l1 = delta l2 -> squareness l2 < squareness l1 ->
   select_better_layout a l1 l2 = l2) /\
  (delta l1 = delta l2 -> squareness l1 = squareness l2 ->
   select_better_layout a l1 l2 = l1).
Proof.
  intros delta squareness.
  unfold select_better_layout, frame_delta, side_length_delta.
  change (Z.abs (columns l1 * rows l1 - frame_count a)) with (delta l1).
  change (Z.abs (columns l2 * rows l2 - frame_count a)) with (delta l2).
  change (Z.abs (columns l1 * frame_width a - rows l1 * frame_height a))
    with (squareness l1).
  change (Z.abs (columns l2 * frame_width a - rows l2 * frame_height a))
    with (squareness l2).
  generalize (delta l1) (delta l2) (squareness l1) (squareness l2).
  clear delta squareness. intros d1 d2 s1 s2.
  destruct (Z.ltb_spec d1 d2), (Z.gtb_spec d1 d2),
           (Z.ltb_spec s1 s2), (Z.gtb_spec s1 s2);
    repeat apply conj; intros; try reflexivity; lia.
Qed.

Lemma select_better_layout_spec_witness :
  select_better_layout animation_100_10 (mkLayout 2 5) (mkLayout 1 1) =
  mkLayout 2 5 /\
  select_better_layout animation_100_10 (mkLayout 1 1) (mkLayout 2 5) =
  mkLayout 2 5 /\
  select_better_layout animation_100_10 (mkLayout 2 5) (mkLayout 10 1) =
  mkLayout 2 5 /\
  select_better_layout animation_100_10 (mkLayout 10 1) (mkLayout 2 5) =
  mkLayout 2 5 /\
  select_better_layout animation_100_10 (mkLayout 5 2) (mkLayout 2 5) =
  mkLayout 5 2.
Proof.
  repeat apply conj.
  - apply (proj1 (select_better_layout_spec animation_100_10
                    (mkLayout 2 5) (mkLayout 1 1))).
    simpl. lia.
  - apply (proj1 (proj2 (select_better_layout_spec animation_100_10
                           (mkLayout 1 1) (mkLayout 2 5)))).
    simpl. lia.
  - apply (proj1 (proj2 (proj2 (select_better_layout_spec animation_100_10
                                  (mkLayout 2 5) (mkLayout 10 1)))));
      simpl; lia.
  - apply (proj1 (proj2 (proj2 (proj2
             (select_better_layout_spec animation_100_10
                (mkLayout 10 1) (mkLayout 2 5))))));
      simpl; lia.
  - apply (proj2 (proj2 (proj2 (proj2
             (select_better_layout_spec animation_100_10
                (mkLayout 5 2) (mkLayout 2 5))))));
      simpl; lia.
Defined.

Lemma range_NoDup (start stop : Z) : NoDup (range start stop).
Proof.
  unfold range. apply Injective_map_NoDup; [|apply seq_NoDup].
  intros i j Hij. lia.
Qed.

Lemma generate_layouts_NoDup (a : Animation) (g : list Layout) :
  generate_layouts a = Ok g -> NoDup g.
Proof.
  intros Hg. apply generate_layouts_Ok in Hg as (_ & _ & ->).
  generalize (range 1 (Z.quot 11000 (frame_height a) + 1))
             (range_NoDup 1 (Z.quot 11000 (frame_height a) + 1)).
  intros rs Hrs.
  generalize (range_NoDup 1 (Z.quot 11000 (frame_width a) + 1)).
  induction (range 1 (Z.quot 11000 (frame_width a) + 1)) as [|c cs IH];
    intros Hcs; simpl; [constructor|].
  inversion Hcs as [|? ? Hc Hcs']; subst.
  apply NoDup_app; [| now apply IH |].
  - apply Injective_map_NoDup; [|exact Hrs]. intros r r' [=]. auto.
  - intros l Hl Hl'. apply in_map_iff in Hl as (r & <- & _).
    apply in_flat_map in Hl' as (c' & Hc' & Hl').
    apply in_map_iff in Hl' as (r' & [= -> _] & _). contradiction.
Qed.

Lemma quot_nonpositive (n d : Z) : 0 <= n -> d < 0 -> Z.quot n d <= 0.
Proof.
  intros Hn Hd. replace d with (- - d) by lia.
  rewrite Z.quot_opp_r by lia.
  pose proof (Z.quot_pos n (- d)). lia.
Qed.

Lemma flat_map_nil {A B : Type} (f : A -> list B) (l : list A) :
  (forall x, f x = []) -> flat_map f l = [].
Proof.
  intros Hf. induction l as [|x l IH]; simpl; [reflexivity|].
  now rewrite Hf, IH.
Qed.

(** C6. The dense and the sparse sequences split the generated grid: put
    together they are the grid up to order, no layout is in both, a layout
    is in the dense one exactly when it is generated and holds at most
    [frame_count] frames, and in the sparse one exactly when it is generated
    and holds more; and the grid generates no layout twice. *)
Theorem dense_sparse_partition (a : Animation) (g : list Layout) :
  generate_layouts a = Ok g ->
  exists dense sparse,
    generate_dense_layouts a = Ok dense /\
    generate_sparse_layouts a = Ok sparse /\
    Permutation (dense ++ sparse) g /\
    NoDup g /\
    (forall l, ~ (In l dense /\ In l sparse)) /\
    (forall l, In l dense <->
               In l g /\ columns l * rows l <= frame_count a) /\
    (forall l, In l sparse <->
               In l g /\ columns l * rows l > frame_count a).
Proof.
  intros Hg. unfold generate_dense_layouts, generate_sparse_layouts.
  rewrite Hg. simpl.
  exists (filter (is_dense a) g), (filter (is_sparse a) g).
  repeat apply conj; try reflexivity.
  - apply filter_complement_Permutation, is_sparse_not_dense.
  - exact (generate_layouts_NoDup a g Hg).
  - intros l [Hd Hs]. apply filter_In in Hd as [_ Hd].
    apply filter_In in Hs as [_ Hs].
    rewrite is_sparse_not_dense, Hd in Hs. discriminate.
  - intros l. rewrite filter_In. unfold is_dense. now rewrite Z.leb_le.
  - intros l. rewrite filter_In. unfold is_sparse.
    now rewrite Z.gtb_ltb, Z.ltb_lt, Z.gt_lt_iff.
Qed.

Lemma dense_sparse_partition_witness :
  exists dense sparse,
    generate_dense_layouts animation_4000_3 = Ok dense /\
    generate_sparse_layouts animation_4000_3 = Ok sparse /\
    Permutation (dense ++ sparse)
      [mkLayout 1 1; mkLayout 1 2; mkLayout 2 1; mkLayout 2 2] /\
    NoDup [mkLayout 1 1; mkLayout 1 2; mkLayout 2 1; mkLayout 2 2] /\
    (forall l, ~ (In l dense /\ In l sparse)) /\
    (forall l, In l dense <->
               In l [mkLayout 1 1; mkLayout 1 2; mkLayout 2 1; mkLayout 2 2]
               /\ columns l * rows l <= 3) /\
    (forall l, In l sparse <->
               In l [mkLayout 1 1; mkLayout 1 2; mkLayout 2 1; mkLayout 2 2]
               /\ columns l * rows l > 3).
Proof.
  apply (dense_sparse_partition animation_4000_3). reflexivity.
Defined.

(** C7. A layout returned by the dense search holds at most [frame_count]
    frames, and a layout returned by the sparse search holds more. *)
Theorem compute_layout_capacity (a : Animation) (l : Layout) :
  (compute_layout a false = Ok (Some l) ->
   columns l * rows l <= frame_count a) /\
  (compute_layout a true = Ok (Some l) ->
   columns l * rows l > frame_count a).
Proof.
  split; intros H; apply compute_layout_In in H as (g & _ & _ & H).
  - unfold is_dense in H. lia.
  - unfold is_sparse in H. lia.
Qed.

Lemma compute_layout_capacity_witness :
  columns (mkLayout 1 2) * rows (mkLayout 1 2) <= 3 /\
  columns (mkLayout 2 2) * rows (mkLayout 2 2) > 3.
Proof.
  split.
  - apply (proj1 (compute_layout_capacity animation_4000_3 (mkLayout 1 2))).
    reflexivity.
  - apply (proj2 (compute_layout_capacity animation_4000_3 (mkLayout 2 2))).
    reflexivity.
Defined.

(** C8. [compute_layout] returns [None] exactly when the sequence it folds
    over is empty.  When a frame is wider than 11000 pixels the generated
    grid is empty and the dense and the sparse search both return [None];
    likewise when it is higher than 11000 pixels.  (The other dimension is
    not zero: the division by it would raise.) *)
Theorem compute_layout_None (a : Animation) :
  (forall sparse ls,
      possible_layouts a sparse = Ok ls ->
      compute_layout a sparse = Ok None <-> ls = []) /\
  (frame_width a > 11000 -> frame_height a <> 0 ->
   generate_layouts a = Ok [] /\
   compute_layout a false = Ok None /\ compute_layout a true = Ok None) /\
  (frame_height a > 11000 -> frame_width a <> 0 ->
   generate_layouts a = Ok [] /\
   compute_layout a false = Ok None /\ compute_layout a true = Ok None).
Proof.
  assert (Hempty : generate_layouts a = Ok [] ->
                   generate_layouts a = Ok [] /\
                   compute_layout a false = Ok None /\
                   compute_layout a true = Ok None).
  { intros Hg. unfold compute_layout, generate_dense_layouts,
      generate_sparse_layouts. rewrite Hg. auto. }
  repeat apply conj.
  - intros sparse ls Hls. rewrite compute_layout_fold, Hls. simpl.
    rewrite <- fold_keep_better_None with (a := a).
    split; [now intros [= ->] | now intros ->].
  - intros Hw Hh. apply Hempty.
    unfold generate_layouts, int_of_truediv, MAX_SIDE_LENGTH.
    destruct (Z.eqb_spec (frame_width a) 0); [lia|].
    destruct (Z.eqb_spec (frame_height a) 0); [contradiction|]. simpl.
    rewrite (Z.quot_small 11000 (frame_width a)) by lia. reflexivity.
  - intros Hh Hw. apply Hempty.
    unfold generate_layouts, int_of_truediv, MAX_SIDE_LENGTH.
    destruct (Z.eqb_spec (frame_width a) 0); [contradiction|].
    destruct (Z.eqb_spec (frame_height a) 0); [lia|]. simpl.
    rewrite (Z.quot_small 11000 (frame_height a)) by lia.
    now rewrite flat_map_nil.
Qed.

Lemma compute_layout_None_witness :
  (compute_layout animation_wide false = Ok None <-> @nil Layout = []) /\
  (generate_layouts animation_wide = Ok [] /\
   compute_layout animation_wide false = Ok None /\
   compute_layout animation_wide true = Ok None) /\
  (generate_layouts animation_high = Ok [] /\
   compute_layout animation_high false = Ok None /\
   compute_layout animation_high true = Ok None).
Proof.
  split; [|split].
  - apply (proj1 (compute_layout_None animation_wide) false []).
    reflexivity.
  - apply (proj1 (proj2 (compute_layout_None animation_wide)));
      simpl; [lia | discriminate].
  - apply (proj2 (proj2 (compute_layout_None animation_high)));
      simpl; [lia | discriminate].
Defined.

(** C10. A layout returned by the exhaustive search, dense or sparse, is one
    of the generated grid: its columns are between 1 and the floor of
    11000 / frame_width, its rows between 1 and the floor of
    11000 / frame_height, and so the packed image is at most 11000 pixels
    wide and high. *)
Theorem compute_layout_in_grid (a : Animation) (sparse : bool) (l : Layout) :
  compute_layout a sparse = Ok (Some l) ->
  (exists g, generate_layouts a = Ok g /\ In l g) /\
  1 <= columns l <= 11000 / frame_width a /\
  1 <= rows l <= 11000 / frame_height a /\
  columns l * frame_width a <= 11000 /\
  rows l * frame_height a <= 11000.
Proof.
  intros H. apply compute_layout_In in H as (g & Hg & Hin & _).
  split; [now exists g|].
  apply (generate_layouts_In a g l Hg) in Hin as [Hc Hr].
  assert (Hw : 0 < frame_width a).
  { destruct (Z.lt_trichotomy (frame_width a) 0) as [Hneg | [H0 | Hpos]];
      [| | exact Hpos].
    - pose proof (quot_nonpositive 11000 (frame_width a)). lia.
    - rewrite H0 in Hc. rewrite Z.quot_0_r_ext in Hc by reflexivity. lia. }
  assert (Hh : 0 < frame_height a).
  { destruct (Z.lt_trichotomy (frame_height a) 0) as [Hneg | [H0 | Hpos]];
      [| | exact Hpos].
    - pose proof (quot_nonpositive 11000 (frame_height a)). lia.
    - rewrite H0 in Hr. rewrite Z.quot_0_r_ext in Hr by reflexivity. lia. }
  rewrite Z.quot_div_nonneg in Hc, Hr by lia.
  pose proof (Z.mul_div_le 11000 (frame_width a) Hw).
  pose proof (Z.mul_div_le 11000 (frame_height a) Hh).
  repeat apply conj; try lia; nia.
Qed.

Lemma compute_layout_in_grid_witness :
  (exists g, generate_layouts animation_4000_3 = Ok g /\
             In (mkLayout 2 2) g) /\
  1 <= 2 <= 11000 / 4000 /\ 1 <= 2 <= 11000 / 4000 /\
  2 * 4000 <= 11000 /\ 2 * 4000 <= 11000.
Proof.
  apply (compute_layout_in_grid animation_4000_3 true (mkLayout 2 2)).
  reflexivity.
Defined.

(** C2, as the code has it.  With 11 frames of 100 by 100 pixels the grid
    holds the exact fit (1,11): the dense search returns it, no frame is
    dropped and [pack_animation] reports neither a removal nor an addition
    (the sparse search would return (3,4)).  Whenever the dense search
    returns a layout that holds fewer frames than there are, the report
    gives [frame_count] minus its capacity as the frames to remove, and the
    capacity of the sparse search's layout minus [frame_count] as the frames
    to add, or the removal alone when the sparse search finds nothing. *)
Theorem pack_animation_shortfall :
  (compute_layout animation_100_11 false = Ok (Some (mkLayout 1 11)) /\
   compute_layout animation_100_11 true = Ok (Some (mkLayout 3 4)) /\
   pack_animation animation_100_11 = Ok (NotShortened (mkLayout 1 11))) /\
  forall (a : Animation) (dense : Layout),
    compute_layout a false = Ok (Some dense) ->
    rows dense * columns dense < frame_count a ->
    (forall sparse,
        compute_layout a true = Ok (Some sparse) ->
        pack_animation a =
        Ok (RemoveOrAdd dense
              (frame_count a - rows dense * columns dense)
              (rows sparse * columns sparse - frame_count a))) /\
    (compute_layout a true = Ok None ->
     pack_animation a =
     Ok (RemoveOnly dense (frame_count a - rows dense * columns dense))).
Proof.
  split; [repeat apply conj; vm_compute; reflexivity|].
  intros a dense Hdense Hlt. unfold pack_animation. rewrite Hdense. simpl.
  apply Z.ltb_lt in Hlt. rewrite Hlt.
  split; [intros sparse Hs | intros Hs]; rewrite Hs; reflexivity.
Qed.

Lemma pack_animation_shortfall_witness :
  pack_animation animation_2000_11 = Ok (RemoveOrAdd (mkLayout 2 5) 1 1).
Proof.
  apply (proj1 (proj2 pack_animation_shortfall animation_2000_11
                  (mkLayout 2 5) eq_refl eq_refl) (mkLayout 3 4)).
  reflexivity.
Defined.

(** C2 as stated fails: with 11 frames of 100 by 100 pixels the best dense
    candidate does not hold 10 frames, and no removal of one frame is
    reported. *)
Lemma pack_animation_shortfall_counterexample :
  ~ (exists l,
        compute_layout animation_100_11 false = Ok (Some l) /\
        columns l * rows l = 10) /\
  ~ (exists l add,
        pack_animation animation_100_11 = Ok (RemoveOrAdd l 1 add)) /\
  ~ (exists l, pack_animation animation_100_11 = Ok (RemoveOnly l 1)).
Proof.
  assert (Hd : compute_layout animation_100_11 false =
               Ok (Some (mkLayout 1 11))) by (vm_compute; reflexivity).
  assert (Hp : pack_animation animation_100_11 =
               Ok (NotShortened (mkLayout 1 11))) by (vm_compute; reflexivity).
  repeat apply conj.
  - intros (l & Hl & Hcap). rewrite Hd in Hl. injection Hl as <-.
    discriminate.
  - intros (l & add & H). rewrite Hp in H. discriminate.
  - intros (l & H). rewrite Hp in H. discriminate.
Qed.

End ExhaustiveSearch.

(** * Properties of the annealing search *)

Section AnnealingSearch.

Import PackImages.

Lemma layout_schedule_ok : schedule_ok layout_fuel (PyInt 15) = true.
Proof. vm_compute. reflexivity. Qed.

Lemma layout_schedule_turns :
  schedule_turns layout_fuel (PyInt 15) = Some (Z.to_nat 15000).
Proof. vm_compute. reflexivity. Qed.

Lemma DBL_OVERFLOW_bound : 2 ^ 1000 + Z.of_nat layout_fuel <= DBL_OVERFLOW.
Proof. apply Z.leb_le. vm_compute. reflexivity. Qed.

Lemma anneal_loop_more_fuel {State : Type}
    (params : Engine.AnnealingParams State) (draws : nat -> Draw) :
  forall (fuel fuel' turn : nat) (v : Engine.loop_vars State) r,
    Engine.anneal_loop fuel params draws turn v = Some r ->
    (fuel <= fuel')%nat ->
    Engine.anneal_loop fuel' params draws turn v = Some r.
Proof.
  induction fuel as [|fuel IH]; intros fuel' turn v r Hrun Hle;
    [discriminate|].
  destruct fuel' as [|fuel']; [lia|]. simpl in *.
  destruct (py_gt (Engine.current_temp v) (Engine.temp_min params));
    [|exact Hrun].
  destruct (Engine.anneal_step params (draws turn) v) as [v'|e];
    [|exact Hrun].
  apply IH; [exact Hrun | lia].
Qed.

Lemma state_valid_spec (s : Layout) (a : Animation) :
  state_valid s a = true <->
  rows s <> 0 /\ columns s <> 0 /\
  columns s * frame_width a <= 11000 /\
  rows s * frame_height a <= 11000 /\
  rows s * columns s <= frame_count a.
Proof.
  unfold state_valid.
  destruct (Z.eqb_spec (rows s) 0), (Z.eqb_spec (columns s) 0); simpl;
    try (split; [discriminate | intros; lia]).
  destruct (Z.gtb_spec (columns s * frame_width a) 11000),
           (Z.gtb_spec (rows s * frame_height a) 11000); simpl;
    try (split; [discriminate | intros; lia]).
  rewrite Z.leb_le. split; intros; [repeat apply conj; auto; lia | lia].
Qed.

Lemma mutate_state_cases (s : Layout) (a : Animation) (d : Draw) :
  mutate_state s a d = s \/
  state_valid (mutate_state s a d) a = true /\
  (mutate_state s a d =
   mkLayout (apply_mutation (choice d) (columns s)) (rows s) \/
   mutate_state s a d =
   mkLayout (columns s) (apply_mutation (choice d) (rows s))).
Proof.
  unfold mutate_state.
  destruct (randint d);
    match goal with
    | |- context [state_valid ?n a] =>
        destruct (state_valid n a) eqn:Hv; auto
    end.
Qed.

Lemma int_truediv_Ok (n : Z) (t : pynum) :
  temp_usable t = true -> Z.abs n < DBL_OVERFLOW ->
  exists x, int_truediv n t = Ok x.
Proof.
  unfold temp_usable, int_truediv. intros Ht Hn.
  apply andb_prop in Ht as [Hpos Hnz]. destruct t as [z|g].
  - simpl in Hpos. destruct (Z.eqb_spec z 0); [lia|].
    destruct (Z.leb_spec (DBL_OVERFLOW * Z.abs z) (Z.abs n)); [nia|].
    eauto.
  - unfold float_of_int.
    destruct (Z.leb_spec DBL_OVERFLOW (Z.abs n)); [lia|]. simpl.
    destruct (PrimFloat.eqb g 0); [discriminate|]. eauto.
Qed.

Lemma accepts_Ok (ce ne : Z) (t : pynum) (d : Draw) :
  temp_usable t = true -> Z.abs (ce - ne) < DBL_OVERFLOW ->
  exists b, Engine.accepts ce ne t d = Ok b.
Proof.
  intros Ht Hdiff. unfold Engine.accepts.
  destruct (ne <? ce); [eauto|].
  destruct (int_truediv_Ok (ce - ne) t Ht Hdiff) as [x ->]. simpl.
  apply andb_prop in Ht as [-> _].
  destruct (ce - ne =? 0); eauto.
Qed.

(** ** One run of the layout instance *)

Section LayoutRun.

Variable a : Animation.
Variable s0 : Layout.
Variable draws : nat -> Draw.

Lemma anneal_step_layout (d : Draw) (cur best : Layout) (t : pynum)
    (v' : Engine.loop_vars Layout) :
  Engine.anneal_step (layout_params a s0) d (layout_vars a cur best t) =
  Ok v' ->
  exists cur' best' t',
    v' = layout_vars a cur' best' t' /\
    py_sub t (PyFloat 0.001) = Ok t' /\
    turn_relates a d cur best cur' best'.
Proof.
  unfold Engine.anneal_step, turn_relates, layout_vars. simpl.
  destruct (Engine.accepts (compute_energy cur a)
              (compute_energy (mutate_state cur a d) a) t d)
    as [[|]|e]; simpl; [| |discriminate].
  - destruct (Z.ltb_spec (compute_energy (mutate_state cur a d) a)
                         (compute_energy best a));
      simpl; destruct (py_sub t (PyFloat 0.001)) as [t'|e]; simpl;
      try discriminate; intros [= <-].
    + exists (mutate_state cur a d), (mutate_state cur a d), t'.
      repeat split; auto.
    + exists (mutate_state cur a d), best, t'. repeat split; auto.
  - destruct (py_sub t (PyFloat 0.001)) as [t'|e]; simpl;
      try discriminate; intros [= <-].
    exists cur, best, t'. repeat split; auto.
Qed.

Lemma energy_step_bound (d : Draw) (cur : Layout) (B : Z) :
  Z.abs (columns cur) <= B -> Z.abs (rows cur) <= B ->
  Z.abs (compute_energy cur a - compute_energy (mutate_state cur a d) a)
  <= B /\
  Z.abs (columns (mutate_state cur a d)) <= B + 1 /\
  Z.abs (rows (mutate_state cur a d)) <= B + 1.
Proof.
  intros Hc Hr. unfold compute_energy.
  destruct (mutate_state_cases cur a d) as [-> | [_ [-> | ->]]]; simpl;
    [lia | |]; destruct (choice d); simpl; lia.
Qed.

Lemma anneal_step_layout_Ok (d : Draw) (cur best : Layout) (t t' : pynum)
    (B : Z) :
  temp_usable t = true -> py_sub t (PyFloat 0.001) = Ok t' ->
  Z.abs (columns cur) <= B -> Z.abs (rows cur) <= B -> B < DBL_OVERFLOW ->
  exists v',
    Engine.anneal_step (layout_params a s0) d (layout_vars a cur best t) =
    Ok v'.
Proof.
  intros Ht Hcool Hc Hr HB.
  destruct (energy_step_bound d cur B Hc Hr) as (Hdiff & _ & _).
  destruct (accepts_Ok (compute_energy cur a)
              (compute_energy (mutate_state cur a d) a) t d Ht)
    as [b Hb]; [lia|].
  unfold Engine.anneal_step, layout_vars. simpl. rewrite Hb. simpl.
  destruct b; [destruct (_ <? _)|]; simpl; rewrite Hcool; simpl; eauto.
Qed.

(** A property of the current and the best state that every turn keeps
    holds of the state the loop returns. *)
Lemma anneal_loop_layout_invariant (P : Layout -> Layout -> Prop) :
  (forall d cur best cur' best',
      turn_relates a d cur best cur' best' ->
      P cur best -> P cur' best') ->
  forall (fuel turn : nat) (cur best : Layout) (t : pynum) (s : Layout),
    P cur best ->
    Engine.anneal_loop fuel (layout_params a s0) draws turn
      (layout_vars a cur best t) = Some (Ok s) ->
    exists cur', P cur' s.
Proof.
  intros Hturn.
  induction fuel as [|fuel IH]; intros turn cur best t s HP Hrun;
    [discriminate|].
  simpl in Hrun. destruct (py_gt t (PyFloat 0.001)).
  - destruct (Engine.anneal_step (layout_params a s0) (draws turn)
                (layout_vars a cur best t)) as [v'|e] eqn:Hstep;
      [|discriminate].
    apply anneal_step_layout in Hstep as (cur' & best' & t' & -> & _ & Hrel).
    exact (IH _ _ _ _ _ (Hturn _ _ _ _ _ Hrel HP) Hrun).
  - injection Hrun as <-. now exists cur.
Qed.

Lemma anneal_loop_layout_returns :
  forall (fuel turn : nat) (cur best : Layout) (t : pynum) (B : Z),
    schedule_ok fuel t = true ->
    Z.abs (columns cur) <= B -> Z.abs (rows cur) <= B ->
    B + Z.of_nat fuel <= DBL_OVERFLOW ->
    exists s,
      Engine.anneal_loop fuel (layout_params a s0) draws turn
        (layout_vars a cur best t) = Some (Ok s).
Proof.
  induction fuel as [|fuel IH]; intros turn cur best t B Hok Hc Hr HB;
    [discriminate|].
  simpl in *. destruct (py_gt t (PyFloat 0.001)); [|eauto].
  apply andb_prop in Hok as [Ht Hok].
  destruct (py_sub t (PyFloat 0.001)) as [t'|e] eqn:Hcool; [|discriminate].
  destruct (anneal_step_layout_Ok (draws turn) cur best t t' B Ht Hcool Hc Hr)
    as [v' Hstep]; [lia|].
  rewrite Hstep.
  apply anneal_step_layout in Hstep
    as (cur' & best' & t'' & -> & Hcool' & Hrel).
  rewrite Hcool in Hcool'. injection Hcool' as <-.
  destruct (energy_step_bound (draws turn) cur B Hc Hr) as (_ & Hc' & Hr').
  apply (IH _ _ _ _ (B + 1)); [exact Hok | | | lia];
    destruct Hrel as [[-> | ->] _]; lia.
Qed.

Lemma turn_relates_improved (d : Draw) (cur best cur' best' : Layout) :
  turn_relates a d cur best cur' best' ->
  reached a s0 cur /\ improved a s0 best /\
  compute_energy best a <= compute_energy s0 a ->
  reached a s0 cur' /\ improved a s0 best' /\
  compute_energy best' a <= compute_energy s0 a.
Proof.
  unfold turn_relates, reached, improved.
  intros [Hcur Hbest] (Hr & Hi & He).
  assert (Hr' : cur' = s0 \/ state_valid cur' a = true).
  { destruct Hcur as [-> | ->]; [exact Hr|].
    destruct (mutate_state_cases cur a d) as [-> | [Hv _]]; auto. }
  split; [exact Hr'|].
  destruct Hbest as [-> | [-> Hlt]]; [auto|].
  split; [|lia]. destruct Hr' as [-> | Hv]; [auto|].
  right. split; [auto|lia].
Qed.

Lemma turn_relates_confined_columns (d : Draw)
    (cur best cur' best' : Layout) :
  columns s0 = 0 ->
  state_valid (mkLayout (Z.sgn (rows s0)) (rows s0)) a = false ->
  turn_relates a d cur best cur' best' ->
  confined_columns s0 cur /\ best = s0 ->
  confined_columns s0 cur' /\ best' = s0.
Proof.
  unfold turn_relates, confined_columns.
  intros Hc0 Hesc [Hcur Hbest] [Hconf ->].
  assert (Hconf' : cur' = s0 \/
                   columns cur' * Z.sgn (rows s0) < 0 /\
                   rows cur' * Z.sgn (rows s0) > 0).
  { destruct Hcur as [-> | ->]; [exact Hconf|].
    destruct (mutate_state_cases cur a d) as [-> | [Hv Hshape]];
      [exact Hconf|].
    right. pose proof (proj1 (state_valid_spec _ _) Hv) as (Hr & Hc & _).
    destruct Hconf as [-> | [H1 H2]].
    - destruct Hshape as [Hs | Hs]; rewrite Hs in Hv, Hr, Hc |- *;
        simpl in *; rewrite Hc0 in *; [|destruct (choice d); simpl in *; lia].
      destruct (Z.sgn_spec (rows s0)) as [[Hs0 Hsg] | [[Hs0 Hsg] | [Hs0 Hsg]]];
        rewrite Hsg in *; destruct (choice d); simpl in *;
        try congruence; lia.
    - destruct Hshape as [Hs | Hs]; rewrite Hs in Hr, Hc |- *; simpl in *;
        destruct (Z.sgn_spec (rows s0))
          as [[Hs0 Hsg] | [[Hs0 Hsg] | [Hs0 Hsg]]];
        rewrite Hsg in *; destruct (choice d); simpl in *; lia. }
  split; [exact Hconf'|].
  destruct Hbest as [-> | [-> Hlt]]; [reflexivity|].
  destruct Hconf' as [-> | [H1 H2]]; [reflexivity|]. exfalso.
  unfold compute_energy in Hlt. rewrite Hc0 in Hlt.
  destruct (Z.sgn_spec (rows s0)) as [[Hs0 Hsg] | [[Hs0 Hsg] | [Hs0 Hsg]]];
    rewrite Hsg in *; nia.
Qed.

Lemma turn_relates_confined_rows (d : Draw)
    (cur best cur' best' : Layout) :
  rows s0 = 0 ->
  state_valid (mkLayout (columns s0) (Z.sgn (columns s0))) a = false ->
  turn_relates a d cur best cur' best' ->
  confined_rows s0 cur /\ best = s0 ->
  confined_rows s0 cur' /\ best' = s0.
Proof.
  unfold turn_relates, confined_rows.
  intros Hr0 Hesc [Hcur Hbest] [Hconf ->].
  assert (Hconf' : cur' = s0 \/
                   rows cur' * Z.sgn (columns s0) < 0 /\
                   columns cur' * Z.sgn (columns s0) > 0).
  { destruct Hcur as [-> | ->]; [exact Hconf|].
    destruct (mutate_state_cases cur a d) as [-> | [Hv Hshape]];
      [exact Hconf|].
    right. pose proof (proj1 (state_valid_spec _ _) Hv) as (Hr & Hc & _).
    destruct Hconf as [-> | [H1 H2]].
    - destruct Hshape as [Hs | Hs]; rewrite Hs in Hv, Hr, Hc |- *;
        simpl in *; rewrite Hr0 in *; [destruct (choice d); simpl in *; lia|].
      destruct (Z.sgn_spec (columns s0))
        as [[Hs0 Hsg] | [[Hs0 Hsg] | [Hs0 Hsg]]];
        rewrite Hsg in *; destruct (choice d); simpl in *;
        try congruence; lia.
    - destruct Hshape as [Hs | Hs]; rewrite Hs in Hr, Hc |- *; simpl in *;
        destruct (Z.sgn_spec (columns s0))
          as [[Hs0 Hsg] | [[Hs0 Hsg] | [Hs0 Hsg]]];
        rewrite Hsg in *; destruct (choice d); simpl in *; lia. }
  split; [exact Hconf'|].
  destruct Hbest as [-> | [-> Hlt]]; [reflexivity|].
  destruct Hconf' as [-> | [H1 H2]]; [reflexivity|]. exfalso.
  unfold compute_energy in Hlt. rewrite Hr0 in Hlt.
  destruct (Z.sgn_spec (columns s0))
    as [[Hs0 Hsg] | [[Hs0 Hsg] | [Hs0 Hsg]]];
    rewrite Hsg in *; nia.
Qed.

Lemma simulate_annealing_unfold (fuel : nat) :
  Engine.simulate_annealing fuel (layout_params a s0) draws =
  Engine.anneal_loop fuel (layout_params a s0) draws 0
    (layout_vars a s0 s0 (PyInt 15)).
Proof. reflexivity. Qed.

Lemma simulate_annealing_improved (fuel : nat) (s : Layout) :
  Engine.simulate_annealing fuel (layout_params a s0) draws = Some (Ok s) ->
  improved a s0 s.
Proof.
  rewrite simulate_annealing_unfold. intros Hrun.
  destruct (anneal_loop_layout_invariant
              (fun cur best =>
                 reached a s0 cur /\ improved a s0 best /\
                 compute_energy best a <= compute_energy s0 a)
              turn_relates_improved fuel 0 s0 s0 (PyInt 15) s)
    as (cur' & _ & Hi & _); [|exact Hrun | exact Hi].
  unfold reached, improved. repeat split; auto; lia.
Qed.

Lemma simulate_annealing_confined_columns (fuel : nat) (s : Layout) :
  columns s0 = 0 ->
  state_valid (mkLayout (Z.sgn (rows s0)) (rows s0)) a = false ->
  Engine.simulate_annealing fuel (layout_params a s0) draws = Some (Ok s) ->
  s = s0.
Proof.
  rewrite simulate_annealing_unfold. intros Hc0 Hesc Hrun.
  destruct (anneal_loop_layout_invariant
              (fun cur best => confined_columns s0 cur /\ best = s0)
              (fun d cur best cur' best' =>
                 turn_relates_confined_columns d cur best cur' best' Hc0 Hesc)
              fuel 0 s0 s0 (PyInt 15) s)
    as (cur' & _ & Hs); [|exact Hrun | exact Hs].
  unfold confined_columns. auto.
Qed.

Lemma simulate_annealing_confined_rows (fuel : nat) (s : Layout) :
  rows s0 = 0 ->
  state_valid (mkLayout (columns s0) (Z.sgn (columns s0))) a = false ->
  Engine.simulate_annealing fuel (layout_params a s0) draws = Some (Ok s) ->
  s = s0.
Proof.
  rewrite simulate_annealing_unfold. intros Hr0 Hesc Hrun.
  destruct (anneal_loop_layout_invariant
              (fun cur best => confined_rows s0 cur /\ best = s0)
              (fun d cur best cur' best' =>
                 turn_relates_confined_rows d cur best cur' best' Hr0 Hesc)
              fuel 0 s0 s0 (PyInt 15) s)
    as (cur' & _ & Hs); [|exact Hrun | exact Hs].
  unfold confined_rows. auto.
Qed.

Lemma simulate_annealing_returns (fuel : nat) :
  Z.abs (columns s0) < 2 ^ 1000 -> Z.abs (rows s0) < 2 ^ 1000 ->
  (layout_fuel <= fuel)%nat ->
  exists s,
    Engine.simulate_annealing fuel (layout_params a s0) draws = Some (Ok s).
Proof.
  intros Hc Hr Hfuel. rewrite simulate_annealing_unfold.
  destruct (anneal_loop_layout_returns layout_fuel 0 s0 s0 (PyInt 15)
              (2 ^ 1000) layout_schedule_ok) as [s Hs];
    [lia | lia | exact DBL_OVERFLOW_bound |].
  exists s. exact (anneal_loop_more_fuel _ _ _ _ _ _ _ Hs Hfuel).
Qed.

End LayoutRun.

(** C4. [state_valid] tests the columns and the rows against zero only, so
    it accepts layouts with a negative number of columns or rows: (-1,-1)
    for 10 frames of 100 by 100 pixels, and (-1,10), which [mutate_state]
    reaches in one step from the initial state (0,10) that
    [make_initial_state] computes for one frame of 1000 by 10 pixels. *)
Theorem state_valid_negative :
  state_valid (mkLayout (-1) (-1)) animation_100_10 = true /\
  make_initial_state animation_1000_10_1 = Ok (mkLayout 0 10) /\
  mutate_state (mkLayout 0 10) animation_1000_10_1
    (mkDraw decrement true true) = mkLayout (-1) 10 /\
  state_valid (mkLayout (-1) 10) animation_1000_10_1 = true.
Proof. repeat apply conj; vm_compute; reflexivity. Qed.

(** C5. In the layout instance, from an initial state that satisfies
    [state_valid] and for every sequence of draws, the state that
    [simulate_annealing] returns satisfies [state_valid]: a mutation is the
    unchanged state or a state that passed [state_valid], so the current and
    the best state stay valid.  The run does return, after the 15000 turns
    of the schedule, when the initial columns and rows are below [2^1000] in
    magnitude (far inside the range of the floats). *)
Theorem simulate_annealing_valid (a : Animation) (s0 : Layout)
    (draws : nat -> Draw) :
  state_valid s0 a = true ->
  (forall d s,
      mutate_state s a d = s \/ state_valid (mutate_state s a d) a = true) /\
  (forall fuel s,
      Engine.simulate_annealing fuel (layout_params a s0) draws =
      Some (Ok s) ->
      state_valid s a = true) /\
  (Z.abs (columns s0) < 2 ^ 1000 -> Z.abs (rows s0) < 2 ^ 1000 ->
   forall fuel,
     (layout_fuel <= fuel)%nat ->
     exists s,
       Engine.simulate_annealing fuel (layout_params a s0) draws =
       Some (Ok s) /\
       state_valid s a = true).
Proof.
  intros Hvalid.
  assert (Hpartial : forall fuel s,
             Engine.simulate_annealing fuel (layout_params a s0) draws =
             Some (Ok s) ->
             state_valid s a = true).
  { intros fuel s Hrun.
    destruct (simulate_annealing_improved a s0 draws fuel s Hrun)
      as [-> | [Hv _]]; assumption. }
  repeat apply conj.
  - intros d s. destruct (mutate_state_cases s a d) as [H | [H _]]; auto.
  - exact Hpartial.
  - intros Hc Hr fuel Hfuel.
    destruct (simulate_annealing_returns a s0 draws fuel Hc Hr Hfuel)
      as [s Hs].
    exists s. split; [exact Hs | exact (Hpartial fuel s Hs)].
Qed.

Lemma simulate_annealing_valid_witness :
  exists s,
    Engine.simulate_annealing layout_fuel
      (layout_params animation_100_10 (mkLayout 3 3)) draws_fewer_columns =
    Some (Ok s) /\
    state_valid s animation_100_10 = true.
Proof.
  apply (proj2 (proj2 (simulate_annealing_valid animation_100_10
                         (mkLayout 3 3) draws_fewer_columns eq_refl)));
    [reflexivity | reflexivity | apply le_n].
Defined.

(** C9, as the code has it.  With the schedule of [compute_layout], for
    every animation, every sequence of draws and every initial state whose
    columns and rows are below [2^1000] in magnitude, degenerate or not,
    [simulate_annealing] leaves its loop after the 15000 turns of the
    schedule without raising and returns a state.  That state is the initial
    one, or one that passed [state_valid] with an energy below the initial
    one.  An initial state without columns is returned whenever the layout
    with one column of the sign of its rows does not pass [state_valid], and
    likewise an initial state without rows. *)
Theorem simulate_annealing_terminates (a : Animation) (s0 : Layout)
    (draws : nat -> Draw) (fuel : nat) :
  Z.abs (columns s0) < 2 ^ 1000 -> Z.abs (rows s0) < 2 ^ 1000 ->
  (layout_fuel <= fuel)%nat ->
  exists s,
    Engine.simulate_annealing fuel (layout_params a s0) draws =
    Some (Ok s) /\
    (s = s0 \/
     state_valid s a = true /\ compute_energy s a < compute_energy s0 a) /\
    (columns s0 = 0 ->
     state_valid (mkLayout (Z.sgn (rows s0)) (rows s0)) a = false ->
     s = s0) /\
    (rows s0 = 0 ->
     state_valid (mkLayout (columns s0) (Z.sgn (columns s0))) a = false ->
     s = s0).
Proof.
  intros Hc Hr Hfuel.
  destruct (simulate_annealing_returns a s0 draws fuel Hc Hr Hfuel)
    as [s Hs].
  exists s. repeat apply conj.
  - exact Hs.
  - exact (simulate_annealing_improved a s0 draws fuel s Hs).
  - intros Hc0 Hesc.
    exact (simulate_annealing_confined_columns a s0 draws fuel s Hc0 Hesc Hs).
  - intros Hr0 Hesc.
    exact (simulate_annealing_confined_rows a s0 draws fuel s Hr0 Hesc Hs).
Qed.

Lemma simulate_annealing_terminates_witness :
  exists s,
    Engine.simulate_annealing layout_fuel
      (layout_params animation_1000_10_1 (mkLayout 0 10))
      draws_fewer_columns = Some (Ok s) /\
    (s = mkLayout 0 10 \/
     state_valid s animation_1000_10_1 = true /\
     compute_energy s animation_1000_10_1 <
     compute_energy (mkLayout 0 10) animation_1000_10_1) /\
    (0 = 0 ->
     state_valid (mkLayout (Z.sgn 10) 10) animation_1000_10_1 = false ->
     s = mkLayout 0 10) /\
    (10 = 0 ->
     state_valid (mkLayout 0 (Z.sgn 0)) animation_1000_10_1 = false ->
     s = mkLayout 0 10).
Proof.
  apply (simulate_annealing_terminates animation_1000_10_1 (mkLayout 0 10)
           draws_fewer_columns layout_fuel);
    [reflexivity | reflexivity | apply le_n].
Defined.

(** Beyond the floats the energy difference cannot be divided by the
    temperature: from the initial state with [-2^1024] columns and one row,
    which [state_valid] accepts, the second turn raises when both turns try
    one more row. *)
Lemma simulate_annealing_overflow :
  state_valid (mkLayout (- 2 ^ 1024) 1) animation_100_10 = true /\
  Engine.simulate_annealing layout_fuel
    (layout_params animation_100_10 (mkLayout (- 2 ^ 1024) 1))
    draws_more_rows = Some (Raise OverflowError).
Proof. split; vm_compute; reflexivity. Qed.

(** C9 as stated fails: one frame of 2 by 1 pixels gives the degenerate
    initial state (0,1), and when the first turn draws one more column the
    run returns (1,1), not the initial state. *)
Lemma simulate_annealing_degenerate_counterexample :
  make_initial_state animation_2_1_1 = Ok (mkLayout 0 1) /\
  columns (mkLayout 0 1) = 0 /\
  Engine.simulate_annealing layout_fuel
    (layout_params animation_2_1_1 (mkLayout 0 1)) draws_more_columns =
  Some (Ok (mkLayout 1 1)) /\
  compute_layout layout_fuel animation_2_1_1 draws_more_columns =
  Some (Ok (mkLayout 1 1)) /\
  mkLayout 1 1 <> mkLayout 0 1.
Proof.
  repeat apply conj; try (vm_compute; reflexivity). discriminate.
Qed.

End AnnealingSearch.

(** * More on the exhaustive search *)

Section ExhaustiveSearchOrder.

Import PackImagesV2.

Lemma select_better_layout_order (a : Animation) (l1 l2 : Layout) :
  better_or_equal a l1 l2 /\ select_better_layout a l1 l2 = l1 \/
  strictly_better a l2 l1 /\ select_better_layout a l1 l2 = l2.
Proof.
  unfold better_or_equal, strictly_better, select_better_layout.
  destruct (Z.ltb_spec (frame_delta a l1) (frame_delta a l2)),
           (Z.gtb_spec (frame_delta a l1) (frame_delta a l2)),
           (Z.ltb_spec (side_length_delta a l1) (side_length_delta a l2)),
           (Z.gtb_spec (side_length_delta a l1) (side_length_delta a l2));
    try lia; (left; split; [lia | reflexivity])
             || (right; split; [lia | reflexivity]).
Qed.

Lemma better_or_equal_refl (a : Animation) (l : Layout) :
  better_or_equal a l l.
Proof. unfold better_or_equal. lia. Qed.

Lemma strictly_better_weaken (a : Animation) (l1 l2 : Layout) :
  strictly_better a l1 l2 -> better_or_equal a l1 l2.
Proof. unfold strictly_better, better_or_equal. lia. Qed.

Lemma strictly_better_or_equal_trans (a : Animation) (l1 l2 l3 : Layout) :
  strictly_better a l1 l2 -> better_or_equal a l2 l3 ->
  strictly_better a l1 l3.
Proof. unfold strictly_better, better_or_equal. lia. Qed.

Lemma better_or_equal_strictly_trans (a : Animation) (l1 l2 l3 : Layout) :
  better_or_equal a l1 l2 -> strictly_better a l2 l3 ->
  strictly_better a l1 l3.
Proof. unfold strictly_better, better_or_equal. lia. Qed.

Lemma strictly_better_irrefl (a : Animation) (l1 l2 : Layout) :
  strictly_better a l1 l2 -> better_or_equal a l2 l1 -> False.
Proof. unfold strictly_better, better_or_equal. lia. Qed.

Lemma first_best_head (a : Animation) (ls : list Layout) (l x : Layout) :
  first_best a (l :: ls) x -> better_or_equal a x l.
Proof.
  intros (before & after & Hsplit & Hb & _).
  destruct before as [|l' before]; simpl in Hsplit; injection Hsplit as <- _.
  - apply better_or_equal_refl.
  - inversion Hb; subst. now apply strictly_better_weaken.
Qed.

Lemma fold_keep_better_first_best (a : Animation) :
  forall (ls : list Layout) (b : Layout),
  exists x,
    fold_left (keep_better a) ls (Some b) = Some x /\
    first_best a (b :: ls) x.
Proof.
  induction ls as [|l ls IH]; intros b; simpl.
  - exists b. split; [reflexivity|].
    exists [], []. repeat split; constructor.
  - destruct (IH (select_better_layout a b l)) as (x & Hx & Hfirst).
    exists x. split; [exact Hx|].
    destruct (select_better_layout_order a b l)
      as [[Hle Hsel] | [Hlt Hsel]]; rewrite Hsel in Hfirst.
    + destruct Hfirst as (before & after & Hsplit & Hb & Ha).
      destruct before as [|b' before]; simpl in Hsplit;
        injection Hsplit as Hhead Htail; subst.
      * exists [], (l :: after). repeat split; constructor; assumption.
      * exists (b' :: l :: before), after.
        inversion Hb as [|? ? Hxb Hb']; subst.
        repeat split; [|exact Ha].
        constructor; [exact Hxb|]. constructor; [|exact Hb'].
        exact (strictly_better_or_equal_trans a x b' l Hxb Hle).
    + pose proof (first_best_head a ls l x Hfirst) as Hxl.
      destruct Hfirst as (before & after & Hsplit & Hb & Ha).
      exists (b :: before), after. simpl. rewrite Hsplit.
      repeat split; [|exact Ha].
      constructor; [|exact Hb].
      exact (better_or_equal_strictly_trans a x l b Hxl Hlt).
Qed.

Lemma first_best_optimal (a : Animation) (ls : list Layout) (x y : Layout) :
  first_best a ls x -> In y ls -> better_or_equal a x y.
Proof.
  intros (before & after & -> & Hb & Ha) Hin.
  rewrite Forall_forall in Hb, Ha.
  apply in_app_or in Hin as [Hin | [<- | Hin]].
  - apply strictly_better_weaken. auto.
  - apply better_or_equal_refl.
  - auto.
Qed.

Lemma compute_layout_possible (a : Animation) (sparse : bool) (l : Layout) :
  compute_layout a sparse = Ok (Some l) ->
  exists ls, possible_layouts a sparse = Ok ls /\ first_best a ls l.
Proof.
  rewrite compute_layout_fold.
  destruct (possible_layouts a sparse) as [ls|e]; simpl; [|discriminate].
  intros [= H]. exists ls. split; [reflexivity|].
  destruct ls as [|l0 ls]; simpl in H; [discriminate|].
  destruct (fold_keep_better_first_best a ls l0) as (x & Hx & Hfirst).
  rewrite Hx in H. injection H as <-. exact Hfirst.
Qed.

(** X1. The layout [compute_layout] returns is the first best of the
    sequence it folds over: strictly better, in the order of
    [select_better_layout], than every candidate before it and at least as
    good as every candidate after it; so no candidate is strictly better. *)
Theorem compute_layout_first_best (a : Animation) (sparse : bool)
    (l : Layout) :
  compute_layout a sparse = Ok (Some l) ->
  exists ls,
    possible_layouts a sparse = Ok ls /\
    first_best a ls l /\
    (forall y, In y ls -> better_or_equal a l y) /\
    (forall y, In y ls -> ~ strictly_better a y l).
Proof.
  intros H. destruct (compute_layout_possible a sparse l H) as (ls & Hls & Hf).
  exists ls. repeat split; auto.
  - intros y Hy. exact (first_best_optimal a ls l y Hf Hy).
  - intros y Hy Hlt.
    exact (strictly_better_irrefl a y l Hlt
             (first_best_optimal a ls l y Hf Hy)).
Qed.

Lemma compute_layout_first_best_witness :
  exists ls,
    possible_layouts animation_4000_3 false = Ok ls /\
    first_best animation_4000_3 ls (mkLayout 1 2) /\
    (forall y, In y ls -> better_or_equal animation_4000_3 (mkLayout 1 2) y) /\
    (forall y, In y ls -> ~ strictly_better animation_4000_3 y (mkLayout 1 2)).
Proof.
  apply (compute_layout_first_best animation_4000_3 false (mkLayout 1 2)).
  reflexivity.
Defined.

(** X2. [select_better_layout] is associative: folding it over three
    candidates gives the same layout however the comparisons are grouped. *)
Theorem select_better_layout_assoc (a : Animation) (l1 l2 l3 : Layout) :
  select_better_layout a (select_better_layout a l1 l2) l3 =
  select_better_layout a l1 (select_better_layout a l2 l3).
Proof.
  destruct (select_better_layout_order a l1 l2) as [[H12 E12] | [H12 E12]];
    destruct (select_better_layout_order a l2 l3) as [[H23 E23] | [H23 E23]];
    rewrite E12, E23;
    destruct (select_better_layout_order a l1 l2)
      as [[H12' E12'] | [H12' E12']];
    destruct (select_better_layout_order a l1 l3)
      as [[H13 E13] | [H13 E13]];
    destruct (select_better_layout_order a l2 l3)
      as [[H23' E23'] | [H23' E23']];
    rewrite ?E12', ?E13, ?E23'; try reflexivity;
    unfold better_or_equal, strictly_better in *; lia.
Qed.

End ExhaustiveSearchOrder.

Section ExhaustiveSearchGrid.

Import PackImagesV2.

Lemma generate_layouts_grid (a : Animation) (g : list Layout) :
  generate_layouts a = Ok g ->
  g = flat_map
        (fun c => map (fun r => mkLayout c r) (range 1 (max_rows a + 1)))
        (range 1 (max_columns a + 1)).
Proof. intros Hg. now apply generate_layouts_Ok in Hg as (_ & _ & ->). Qed.

Lemma generate_layouts_bounds (a : Animation) (g : list Layout) (l : Layout) :
  generate_layouts a = Ok g ->
  In l g <->
  1 <= columns l <= max_columns a /\ 1 <= rows l <= max_rows a.
Proof. exact (generate_layouts_In a g l). Qed.

Lemma quot_bound_positive (d : Z) :
  1 <= Z.quot 11000 d <-> 1 <= d <= 11000.
Proof.
  split.
  - intros Hq.
    destruct (Z.lt_trichotomy d 0) as [Hneg | [-> | Hpos]].
    + pose proof (quot_nonpositive 11000 d). lia.
    + rewrite Z.quot_0_r_ext in Hq by reflexivity. lia.
    + split; [lia|]. destruct (Z.le_gt_cases d 11000) as [|Hbig]; [assumption|].
      rewrite Z.quot_small in Hq by lia. lia.
  - intros Hd. rewrite Z.quot_div_nonneg by lia.
    apply Z.div_le_lower_bound; lia.
Qed.

Lemma generate_layouts_returns (a : Animation) :
  frame_width a <> 0 -> frame_height a <> 0 ->
  exists g, generate_layouts a = Ok g.
Proof.
  intros Hw Hh. unfold generate_layouts, int_of_truediv.
  destruct (Z.eqb_spec (frame_width a) 0); [contradiction|].
  destruct (Z.eqb_spec (frame_height a) 0); [contradiction|].
  simpl. eauto.
Qed.

(** X3. The generator, and with it [compute_layout] in both modes and the
    layout part of [pack_animation], raises [ZeroDivisionError] when the
    frame width or the frame height is zero, and raises nothing for any
    other descriptor. *)
Theorem generate_layouts_raises (a : Animation) :
  (frame_width a = 0 \/ frame_height a = 0 ->
   generate_layouts a = Raise ZeroDivisionError /\
   (forall sparse, compute_layout a sparse = Raise ZeroDivisionError) /\
   pack_animation a = Raise ZeroDivisionError) /\
  (frame_width a <> 0 -> frame_height a <> 0 ->
   (exists g, generate_layouts a = Ok g) /\
   (forall sparse, exists r, compute_layout a sparse = Ok r) /\
   (exists report, pack_animation a = Ok report)).
Proof.
  split.
  - intros Hzero.
    assert (Hg : generate_layouts a = Raise ZeroDivisionError).
    { unfold generate_layouts, int_of_truediv.
      destruct (Z.eqb_spec (frame_width a) 0); [reflexivity|]. simpl.
      destruct (Z.eqb_spec (frame_height a) 0); [reflexivity|]. lia. }
    assert (Hc : forall sparse,
               compute_layout a sparse = Raise ZeroDivisionError).
    { intros sparse. unfold compute_layout, generate_sparse_layouts,
        generate_dense_layouts. rewrite Hg. now destruct sparse. }
    repeat split; auto. unfold pack_animation. now rewrite Hc.
  - intros Hw Hh.
    destruct (generate_layouts_returns a Hw Hh) as [g Hg].
    assert (Hc : forall sparse, exists r, compute_layout a sparse = Ok r).
    { intros sparse. unfold compute_layout, generate_sparse_layouts,
        generate_dense_layouts. rewrite Hg. destruct sparse; simpl; eauto. }
    repeat split; eauto. unfold pack_animation.
    destruct (Hc false) as [[l|] ->]; simpl; [|eauto].
    destruct (_ <? _); [|eauto].
    destruct (Hc true) as [[s|] ->]; simpl; eauto.
Qed.

Lemma generate_layouts_raises_witness :
  (generate_layouts (mkAnimation 0 100 10 24%float) =
   Raise ZeroDivisionError /\
   (forall sparse,
       compute_layout (mkAnimation 0 100 10 24%float) sparse =
       Raise ZeroDivisionError) /\
   pack_animation (mkAnimation 0 100 10 24%float) =
   Raise ZeroDivisionError) /\
  ((exists g, generate_layouts animation_4000_3 = Ok g) /\
   (forall sparse, exists r, compute_layout animation_4000_3 sparse = Ok r) /\
   (exists report, pack_animation animation_4000_3 = Ok report)).
Proof.
  split.
  - apply (proj1 (generate_layouts_raises (mkAnimation 0 100 10 24%float))).
    left. reflexivity.
  - apply (proj2 (generate_layouts_raises animation_4000_3));
      simpl; discriminate.
Defined.

Lemma range_length (start stop : Z) :
  length (range start stop) = Z.to_nat (stop - start).
Proof. unfold range. now rewrite length_map, length_seq. Qed.

Lemma range_sorted (start stop : Z) : StronglySorted Z.lt (range start stop).
Proof.
  unfold range. generalize 0%nat.
  induction (Z.to_nat (stop - start)) as [|n IH]; intros k; simpl;
    constructor; [apply IH|].
  apply Forall_forall. intros x Hx.
  apply in_map_iff in Hx as (i & <- & Hi). apply in_seq in Hi. lia.
Qed.

Lemma flat_map_length_const {A B : Type} (f : A -> list B) (n : nat)
    (l : list A) :
  (forall x, length (f x) = n) -> length (flat_map f l) = (length l * n)%nat.
Proof.
  intros Hf. induction l as [|x l IH]; simpl; [reflexivity|].
  now rewrite length_app, Hf, IH.
Qed.

Lemma StronglySorted_app {A : Type} (R : A -> A -> Prop) (l1 l2 : list A) :
  StronglySorted R l1 -> StronglySorted R l2 ->
  (forall x y, In x l1 -> In y l2 -> R x y) ->
  StronglySorted R (l1 ++ l2).
Proof.
  intros H1 H2 H12. induction H1 as [|x l1 H1 IH Hx]; simpl; [exact H2|].
  constructor.
  - apply IH. intros; apply H12; simpl; auto.
  - apply Forall_app. split; [exact Hx|].
    apply Forall_forall. intros y Hy. apply H12; simpl; auto.
Qed.

Lemma StronglySorted_filter {A : Type} (R : A -> A -> Prop) (f : A -> bool)
    (l : list A) :
  StronglySorted R l -> StronglySorted R (filter f l).
Proof.
  induction 1 as [|x l Hl IH Hx]; simpl; [constructor|].
  destruct (f x); [|exact IH]. constructor; [exact IH|].
  rewrite Forall_forall in *. intros y Hy. apply filter_In in Hy as [Hy _].
  auto.
Qed.

Lemma generate_layouts_sorted (a : Animation) (g : list Layout) :
  generate_layouts a = Ok g -> StronglySorted generated_before g.
Proof.
  intros Hg. rewrite (generate_layouts_grid a g Hg).
  pose proof (range_sorted 1 (max_rows a + 1)) as Hrows.
  pose proof (range_sorted 1 (max_columns a + 1)) as Hcols.
  induction Hcols as [|c cs Hcs IH Hc]; simpl; [constructor|].
  apply StronglySorted_app; [|exact IH|].
  - clear -Hrows. induction Hrows as [|r rs Hrs IH Hr]; simpl; constructor;
      [exact IH|].
    rewrite Forall_forall in *. intros l Hl.
    apply in_map_iff in Hl as (r' & <- & Hr').
    right. simpl. split; [reflexivity | auto].
  - intros x y Hx Hy. apply in_map_iff in Hx as (r & <- & _).
    apply in_flat_map in Hy as (c' & Hc' & Hy).
    apply in_map_iff in Hy as (r' & <- & _).
    left. simpl. rewrite Forall_forall in Hc. auto.
Qed.

(** X4. The generator yields [max_columns * max_rows] layouts (none when a
    bound is below one), in strictly increasing order of columns first and
    rows second. *)
Theorem generate_layouts_order (a : Animation) (g : list Layout) :
  generate_layouts a = Ok g ->
  length g = (Z.to_nat (max_columns a) * Z.to_nat (max_rows a))%nat /\
  StronglySorted generated_before g.
Proof.
  intros Hg. split; [|exact (generate_layouts_sorted a g Hg)].
  rewrite (generate_layouts_grid a g Hg).
  rewrite flat_map_length_const with (n := Z.to_nat (max_rows a)).
  - rewrite range_length. f_equal. lia.
  - intros c. rewrite length_map, range_length. f_equal. lia.
Qed.

Lemma generate_layouts_order_witness :
  length [mkLayout 1 1; mkLayout 1 2; mkLayout 2 1; mkLayout 2 2] =
  (Z.to_nat (max_columns animation_4000_3) *
   Z.to_nat (max_rows animation_4000_3))%nat /\
  StronglySorted generated_before
    [mkLayout 1 1; mkLayout 1 2; mkLayout 2 1; mkLayout 2 2].
Proof.
  apply (generate_layouts_order animation_4000_3). reflexivity.
Defined.

Lemma possible_layouts_sorted (a : Animation) (sparse : bool)
    (ls : list Layout) :
  possible_layouts a sparse = Ok ls ->
  StronglySorted generated_before ls /\
  exists g, generate_layouts a = Ok g /\
            forall l, In l ls <->
                      In l g /\
                      (if sparse then is_sparse a l else is_dense a l) = true.
Proof.
  unfold possible_layouts, generate_sparse_layouts, generate_dense_layouts.
  destruct (generate_layouts a) as [g|e] eqn:Hg;
    [|destruct sparse; discriminate].
  pose proof (generate_layouts_sorted a g Hg) as Hs.
  destruct sparse; simpl; intros [= <-];
    (split; [now apply StronglySorted_filter|]);
    exists g; (split; [reflexivity|]); intros l; apply filter_In.
Qed.

(** X5. Among the candidates that tie with the returned layout in both
    measures, the returned one comes first in the generation order: it has
    the fewest columns, and the fewest rows among those. *)
Theorem compute_layout_tie_break (a : Animation) (sparse : bool)
    (l y : Layout) (ls : list Layout) :
  compute_layout a sparse = Ok (Some l) ->
  possible_layouts a sparse = Ok ls ->
  In y ls ->
  frame_delta a y = frame_delta a l ->
  side_length_delta a y = side_length_delta a l ->
  y = l \/ generated_before l y.
Proof.
  intros Hl Hls Hy Hd Hs.
  destruct (compute_layout_possible a sparse l Hl) as (ls' & Hls' & Hf).
  rewrite Hls in Hls'. injection Hls' as <-.
  destruct (possible_layouts_sorted a sparse ls Hls) as [Hsorted _].
  destruct Hf as (before & after & -> & Hb & _).
  apply in_app_or in Hy as [Hy | [<- | Hy]]; [| now left |].
  - rewrite Forall_forall in Hb. specialize (Hb y Hy).
    unfold strictly_better in Hb. lia.
  - right. clear -Hsorted Hy.
    induction before as [|b before IH]; simpl in Hsorted;
      inversion Hsorted as [|? ? Hrest Hall]; subst.
    + rewrite Forall_forall in Hall. auto.
    + auto.
Qed.

Lemma compute_layout_tie_break_witness :
  mkLayout 5 2 = mkLayout 2 5 \/ generated_before (mkLayout 2 5) (mkLayout 5 2).
Proof.
  apply (compute_layout_tie_break animation_2000_11 false (mkLayout 2 5)
           (mkLayout 5 2)
           (filter (is_dense animation_2000_11)
              (flat_map
                 (fun c => map (fun r => mkLayout c r) (range 1 6))
                 (range 1 6))));
    try reflexivity.
  vm_compute. tauto.
Defined.

End ExhaustiveSearchGrid.

Section ExhaustiveSearchCapacity.

Import PackImagesV2.

Lemma dense_frame_delta (a : Animation) (l : Layout) :
  is_dense a l = true ->
  frame_delta a l = frame_count a - columns l * rows l.
Proof. unfold is_dense, frame_delta. lia. Qed.

Lemma sparse_frame_delta (a : Animation) (l : Layout) :
  is_sparse a l = true ->
  frame_delta a l = columns l * rows l - frame_count a.
Proof. unfold is_sparse, frame_delta. lia. Qed.

Lemma compute_layout_dense_max (a : Animation) (l y : Layout)
    (g : list Layout) :
  compute_layout a false = Ok (Some l) ->
  generate_layouts a = Ok g -> In y g ->
  columns y * rows y <= frame_count a ->
  columns y * rows y <= columns l * rows l.
Proof.
  intros Hl Hg Hy Hcap.
  destruct (compute_layout_In a false l Hl) as (g' & _ & _ & Hdense).
  destruct (compute_layout_possible a false l Hl) as (ls & Hls & Hf).
  destruct (possible_layouts_sorted a false ls Hls) as (_ & g'' & Hg'' & Hin).
  rewrite Hg in Hg''. injection Hg'' as <-.
  assert (Hyd : is_dense a y = true) by (unfold is_dense; lia).
  pose proof (first_best_optimal a ls l y Hf (proj2 (Hin y) (conj Hy Hyd)))
    as Hbest.
  unfold better_or_equal in Hbest.
  rewrite !dense_frame_delta in Hbest by assumption. lia.
Qed.

Lemma compute_layout_sparse_min (a : Animation) (l y : Layout)
    (g : list Layout) :
  compute_layout a true = Ok (Some l) ->
  generate_layouts a = Ok g -> In y g ->
  columns y * rows y > frame_count a ->
  columns l * rows l <= columns y * rows y.
Proof.
  intros Hl Hg Hy Hcap.
  destruct (compute_layout_In a true l Hl) as (g' & _ & _ & Hsparse).
  destruct (compute_layout_possible a true l Hl) as (ls & Hls & Hf).
  destruct (possible_layouts_sorted a true ls Hls) as (_ & g'' & Hg'' & Hin).
  rewrite Hg in Hg''. injection Hg'' as <-.
  assert (Hys : is_sparse a y = true) by (unfold is_sparse; lia).
  pose proof (first_best_optimal a ls l y Hf (proj2 (Hin y) (conj Hy Hys)))
    as Hbest.
  unfold better_or_equal in Hbest.
  rewrite !sparse_frame_delta in Hbest by assumption. lia.
Qed.

(** X6. The dense search returns a layout of the largest capacity among the
    generated layouts that hold at most [frame_count] frames, and the sparse
    search one of the smallest capacity among those that hold more. *)
Theorem compute_layout_capacity_optimal (a : Animation) (g : list Layout)
    (y : Layout) :
  generate_layouts a = Ok g -> In y g ->
  (forall l,
      compute_layout a false = Ok (Some l) ->
      columns y * rows y <= frame_count a ->
      columns y * rows y <= columns l * rows l) /\
  (forall l,
      compute_layout a true = Ok (Some l) ->
      columns y * rows y > frame_count a ->
      columns l * rows l <= columns y * rows y).
Proof.
  intros Hg Hy. split; intros l Hl Hcap.
  - exact (compute_layout_dense_max a l y g Hl Hg Hy Hcap).
  - exact (compute_layout_sparse_min a l y g Hl Hg Hy Hcap).
Qed.

Lemma compute_layout_capacity_optimal_witness :
  (forall l,
      compute_layout animation_4000_3 false = Ok (Some l) ->
      columns (mkLayout 2 1) * rows (mkLayout 2 1) <= 3 ->
      columns (mkLayout 2 1) * rows (mkLayout 2 1) <= columns l * rows l) /\
  (forall l,
      compute_layout animation_4000_3 true = Ok (Some l) ->
      columns (mkLayout 2 1) * rows (mkLayout 2 1) > 3 ->
      columns l * rows l <= columns (mkLayout 2 1) * rows (mkLayout 2 1)).
Proof.
  apply (compute_layout_capacity_optimal animation_4000_3
           [mkLayout 1 1; mkLayout 1 2; mkLayout 2 1; mkLayout 2 2]
           (mkLayout 2 1)); [reflexivity | simpl; tauto].
Defined.

Lemma compute_layout_Some_nonempty (a : Animation) (sparse : bool)
    (g : list Layout) (y : Layout) :
  generate_layouts a = Ok g -> In y g ->
  (if sparse then is_sparse a y else is_dense a y) = true ->
  exists l, compute_layout a sparse = Ok (Some l).
Proof.
  intros Hg Hy Hp.
  assert (Hls : possible_layouts a sparse =
                Ok (filter (if sparse then is_sparse a else is_dense a) g)).
  { unfold possible_layouts, generate_sparse_layouts,
      generate_dense_layouts. rewrite Hg. now destruct sparse. }
  rewrite compute_layout_fold, Hls. simpl.
  destruct (fold_left (keep_better a) _ None) as [l|] eqn:Hfold; [eauto|].
  apply fold_keep_better_None in Hfold.
  assert (Hin : In y (filter (if sparse then is_sparse a else is_dense a) g)).
  { apply filter_In. split; [exact Hy|]. now destruct sparse. }
  rewrite Hfold in Hin. contradiction.
Qed.

Lemma grid_bounds_positive (a : Animation) (g : list Layout) (l : Layout) :
  generate_layouts a = Ok g -> In l g ->
  1 <= frame_width a <= 11000 /\ 1 <= frame_height a <= 11000.
Proof.
  intros Hg Hl. apply (generate_layouts_bounds a g l Hg) in Hl as [Hc Hr].
  unfold max_columns, max_rows in *.
  split; apply quot_bound_positive; lia.
Qed.

Lemma grid_exists (a : Animation) :
  1 <= frame_width a <= 11000 -> 1 <= frame_height a <= 11000 ->
  exists g, generate_layouts a = Ok g /\
            1 <= max_columns a /\ 1 <= max_rows a.
Proof.
  intros Hw Hh.
  destruct (generate_layouts_returns a) as [g Hg]; [lia | lia |].
  exists g. split; [exact Hg|].
  unfold max_columns, max_rows. split; apply quot_bound_positive; lia.
Qed.

Lemma compute_layout_dense_Some (a : Animation) :
  (exists l, compute_layout a false = Ok (Some l)) <->
  1 <= frame_width a <= 11000 /\ 1 <= frame_height a <= 11000 /\
  1 <= frame_count a.
Proof.
  split.
  - intros [l Hl]. destruct (compute_layout_In a false l Hl)
      as (g & Hg & Hin & Hd).
    destruct (grid_bounds_positive a g l Hg Hin) as [Hw Hh].
    apply (generate_layouts_bounds a g l Hg) in Hin.
    unfold is_dense in Hd. repeat split; try lia; nia.
  - intros (Hw & Hh & Hc).
    destruct (grid_exists a Hw Hh) as (g & Hg & Hmc & Hmr).
    apply (compute_layout_Some_nonempty a false g (mkLayout 1 1) Hg).
    + apply (generate_layouts_bounds a g _ Hg). simpl. lia.
    + unfold is_dense. simpl. lia.
Qed.

Lemma compute_layout_sparse_Some (a : Animation) :
  (exists l, compute_layout a true = Ok (Some l)) <->
  1 <= frame_width a <= 11000 /\ 1 <= frame_height a <= 11000 /\
  frame_count a < max_columns a * max_rows a.
Proof.
  split.
  - intros [l Hl]. destruct (compute_layout_In a true l Hl)
      as (g & Hg & Hin & Hs).
    destruct (grid_bounds_positive a g l Hg Hin) as [Hw Hh].
    apply (generate_layouts_bounds a g l Hg) in Hin.
    unfold is_sparse in Hs. repeat split; try lia; nia.
  - intros (Hw & Hh & Hc).
    destruct (grid_exists a Hw Hh) as (g & Hg & Hmc & Hmr).
    apply (compute_layout_Some_nonempty a true g
             (mkLayout (max_columns a) (max_rows a)) Hg).
    + apply (generate_layouts_bounds a g _ Hg). simpl. lia.
    + unfold is_sparse. simpl. lia.
Qed.

(** X7. The dense search finds a layout exactly when both frame dimensions
    are between 1 and 11000 pixels and there is at least one frame; the
    sparse search finds one exactly when, in addition, the largest generated
    layout holds more than [frame_count] frames. *)
Theorem compute_layout_Some_iff (a : Animation) :
  ((exists l, compute_layout a false = Ok (Some l)) <->
   1 <= frame_width a <= 11000 /\ 1 <= frame_height a <= 11000 /\
   1 <= frame_count a) /\
  ((exists l, compute_layout a true = Ok (Some l)) <->
   1 <= frame_width a <= 11000 /\ 1 <= frame_height a <= 11000 /\
   frame_count a < max_columns a * max_rows a).
Proof.
  split; [apply compute_layout_dense_Some | apply compute_layout_sparse_Some].
Qed.

Lemma compute_layout_Some_iff_witness :
  (exists l, compute_layout animation_4000_3 false = Ok (Some l)) /\
  (exists l, compute_layout animation_4000_3 true = Ok (Some l)).
Proof.
  split.
  - apply (proj2 (proj1 (compute_layout_Some_iff animation_4000_3))).
    simpl. lia.
  - apply (proj2 (proj2 (compute_layout_Some_iff animation_4000_3))).
    vm_compute. intuition discriminate.
Defined.

Lemma compute_layout_dense_capacity (a : Animation) (l : Layout) :
  compute_layout a false = Ok (Some l) ->
  columns l * rows l <= frame_count a.
Proof.
  intros H. apply compute_layout_In in H as (g & _ & _ & H).
  unfold is_dense in H. lia.
Qed.

Lemma compute_layout_sparse_capacity (a : Animation) (l : Layout) :
  compute_layout a true = Ok (Some l) ->
  columns l * rows l > frame_count a.
Proof.
  intros H. apply compute_layout_In in H as (g & _ & _ & H).
  unfold is_sparse in H. lia.
Qed.

Lemma largest_layout_unique (c r mc mr : Z) :
  1 <= c <= mc -> 1 <= r <= mr -> mc * mr <= c * r -> c = mc /\ r = mr.
Proof. intros Hc Hr Hcap. split; nia. Qed.

(** X8. What each report of [pack_animation] means.  Without a layout, a
    frame dimension is outside 1..11000 or there is no frame.  Without a
    message, the layout holds exactly [frame_count] frames.  With a removal
    and an addition, both counts are at least one, the layout holds
    [frame_count - removed] frames, and no generated layout has a capacity
    strictly between [frame_count - removed] and [frame_count + add]: the
    counts are the smallest that make the sequence fit.  With a removal
    alone, the layout is the largest generated one, [max_columns] by
    [max_rows], and still holds fewer frames than there are. *)
Theorem pack_animation_report (a : Animation) (report : shortfall_report) :
  pack_animation a = Ok report ->
  match report with
  | NoSuitableLayout =>
      ~ (1 <= frame_width a <= 11000 /\ 1 <= frame_height a <= 11000 /\
         1 <= frame_count a)
  | NotShortened l => rows l * columns l = frame_count a
  | RemoveOrAdd l removed add =>
      1 <= removed /\ 1 <= add /\
      rows l * columns l = frame_count a - removed /\
      forall g y,
        generate_layouts a = Ok g -> In y g ->
        columns y * rows y <= frame_count a - removed \/
        frame_count a + add <= columns y * rows y
  | RemoveOnly l removed =>
      1 <= removed /\
      l = mkLayout (max_columns a) (max_rows a) /\
      max_columns a * max_rows a = frame_count a - removed
  end.
Proof.
  unfold pack_animation.
  destruct (compute_layout a false) as [[l|]|e] eqn:Hdense; simpl;
    [| |discriminate].
  - pose proof (compute_layout_dense_capacity a l Hdense) as Hcap.
    destruct (Z.ltb_spec (rows l * columns l) (frame_count a)) as [Hlt|Hge].
    + destruct (compute_layout a true) as [[s|]|e] eqn:Hsparse; simpl;
        [| |discriminate]; intros [= <-].
      * pose proof (compute_layout_sparse_capacity a s Hsparse) as Hs.
        repeat split; try lia.
        intros g y Hg Hy.
        destruct (Z.le_gt_cases (columns y * rows y) (frame_count a))
          as [Hyd | Hys].
        -- left.
           pose proof (compute_layout_dense_max a l y g Hdense Hg Hy Hyd).
           lia.
        -- right.
           pose proof (compute_layout_sparse_min a s y g Hsparse Hg Hy).
           lia.
      * destruct (proj1 (compute_layout_dense_Some a) (ex_intro _ l Hdense))
          as (Hw & Hh & Hc).
        destruct (grid_exists a Hw Hh) as (g & Hg & Hmc & Hmr).
        assert (Hfull : max_columns a * max_rows a <= frame_count a).
        { destruct (Z.le_gt_cases (max_columns a * max_rows a)
                      (frame_count a)) as [|Hbig]; [assumption|].
          destruct (proj2 (compute_layout_sparse_Some a)) as [s Hs];
            [lia | congruence]. }
        assert (Hlarge : In (mkLayout (max_columns a) (max_rows a)) g).
        { apply (generate_layouts_bounds a g _ Hg). simpl. lia. }
        pose proof (compute_layout_dense_max a l _ g Hdense Hg Hlarge Hfull)
          as Hmax. simpl in Hmax.
        destruct (compute_layout_In a false l Hdense) as (g' & Hg' & Hl & _).
        rewrite Hg in Hg'. injection Hg' as <-.
        apply (generate_layouts_bounds a g l Hg) in Hl as [Hlc Hlr].
        destruct (largest_layout_unique (columns l) (rows l)
                    (max_columns a) (max_rows a) Hlc Hlr Hmax) as [Ec Er].
        repeat split; [lia | | nia].
        destruct l as [c r]. simpl in *. now subst.
    + intros [= <-]. lia.
  - intros [= <-]. intros Hcond.
    destruct (proj2 (compute_layout_dense_Some a) Hcond) as [l Hl].
    congruence.
Qed.

Lemma pack_animation_report_witness :
  1 <= 1 /\ 1 <= 1 /\
  rows (mkLayout 2 5) * columns (mkLayout 2 5) = 11 - 1 /\
  forall g y,
    generate_layouts animation_2000_11 = Ok g -> In y g ->
    columns y * rows y <= 11 - 1 \/ 11 + 1 <= columns y * rows y.
Proof.
  apply (pack_animation_report animation_2000_11
           (RemoveOrAdd (mkLayout 2 5) 1 1)).
  reflexivity.
Defined.

(** X9. [pack_animation] keeps every frame, printing no message, exactly
    when some generated layout holds exactly [frame_count] frames. *)
Theorem pack_animation_exact_fit (a : Animation) :
  (exists l, pack_animation a = Ok (NotShortened l)) <->
  (exists g y,
      generate_layouts a = Ok g /\ In y g /\
      columns y * rows y = frame_count a).
Proof.
  split.
  - intros [l Hrun]. unfold pack_animation in Hrun.
    destruct (compute_layout a false) as [[l'|]|e] eqn:Hdense; simpl in Hrun;
      try discriminate.
    destruct (Z.ltb_spec (rows l' * columns l') (frame_count a))
      as [Hlt|Hge].
    + destruct (compute_layout a true) as [[s|]|e]; discriminate.
    + pose proof (compute_layout_dense_capacity a l' Hdense) as Hcap.
      destruct (compute_layout_In a false l' Hdense) as (g & Hg & Hin & _).
      exists g, l'. repeat split; auto. lia.
  - intros (g & y & Hg & Hy & Hfit).
    destruct (compute_layout_Some_nonempty a false g y Hg Hy) as [l Hl].
    { unfold is_dense. lia. }
    pose proof (compute_layout_dense_max a l y g Hl Hg Hy) as Hmax.
    exists l. unfold pack_animation. rewrite Hl. simpl.
    destruct (Z.ltb_spec (rows l * columns l) (frame_count a)); [lia|].
    reflexivity.
Qed.

Lemma pack_animation_exact_fit_witness :
  exists l,
    pack_animation (mkAnimation 4000 4000 2 24%float) = Ok (NotShortened l).
Proof.
  apply (proj2 (pack_animation_exact_fit
                  (mkAnimation 4000 4000 2 24%float))).
  exists [mkLayout 1 1; mkLayout 1 2; mkLayout 2 1; mkLayout 2 2],
         (mkLayout 1 2).
  split; [reflexivity|]. split; [simpl; tauto | reflexivity].
Defined.

End ExhaustiveSearchCapacity.

(** * The frame placement *)

Section FramePlacement.

Import Compositor.

Lemma int_of_truediv_small (index columns : Z) :
  0 <= index < 2 ^ 53 -> 1 <= columns ->
  int_of_truediv index columns = Ok (index / columns).
Proof.
  intros Hi Hc. unfold int_of_truediv.
  destruct (Z.ltb_spec (Z.abs index) (2 ^ 53)); [|lia].
  destruct (Z.eqb_spec columns 0); [lia|].
  now rewrite Z.quot_div_nonneg by lia.
Qed.

Lemma frame_box_cell (a : Animation) (l : Layout) (index : Z) :
  0 <= index < 2 ^ 53 -> 1 <= columns l ->
  frame_box a l index =
  Ok (region_of_cell a (index / columns l) (index mod columns l)).
Proof.
  intros Hi Hc. unfold frame_box.
  now rewrite int_of_truediv_small by assumption.
Qed.

Lemma cell_of_index (index columns rows : Z) :
  1 <= columns -> 0 <= index < rows * columns ->
  index = index / columns * columns + index mod columns /\
  0 <= index / columns < rows /\ 0 <= index mod columns < columns.
Proof.
  intros Hc Hi.
  pose proof (Z.div_mod index columns ltac:(lia)).
  pose proof (Z.mod_pos_bound index columns ltac:(lia)).
  assert (0 <= index / columns) by (apply Z.div_pos; lia).
  assert (index / columns < rows)
    by (apply Z.div_lt_upper_bound; lia).
  lia.
Qed.

Lemma index_of_cell (row column columns : Z) :
  0 <= column < columns ->
  (row * columns + column) / columns = row /\
  (row * columns + column) mod columns = column.
Proof.
  intros Hc. split.
  - symmetry. apply (Z.div_unique _ _ row column); lia.
  - symmetry. apply (Z.mod_unique _ _ row column); lia.
Qed.

Lemma region_of_cell_inside (a : Animation) (l : Layout) (row column : Z) :
  0 <= frame_width a -> 0 <= frame_height a ->
  0 <= row < rows l -> 0 <= column < columns l ->
  box_inside (region_of_cell a row column) (packed_size a l).
Proof.
  intros Hw Hh Hr Hc. unfold box_inside, region_of_cell, packed_size. simpl.
  repeat split; nia.
Qed.

(** X10. The loop places frame [index] row by row: in row
    [index // columns] and column [index % columns] of the atlas, and, for
    an index below the capacity of the layout, the region it pastes into
    lies inside the packed image. *)
Theorem frame_box_row_major (a : Animation) (l : Layout) (index : Z) :
  1 <= columns l -> 0 <= frame_width a -> 0 <= frame_height a ->
  0 <= index < rows l * columns l -> index < 2 ^ 53 ->
  exists row column,
    frame_box a l index = Ok (region_of_cell a row column) /\
    index = row * columns l + column /\
    0 <= row < rows l /\ 0 <= column < columns l /\
    box_inside (region_of_cell a row column) (packed_size a l).
Proof.
  intros Hc Hw Hh Hi Hsmall.
  destruct (cell_of_index index (columns l) (rows l) Hc Hi)
    as (Hidx & Hrow & Hcol).
  exists (index / columns l), (index mod columns l).
  split; [apply frame_box_cell; lia|].
  split; [lia|]. split; [lia|]. split; [lia|].
  apply region_of_cell_inside; lia.
Qed.

Lemma frame_box_row_major_witness :
  exists row column,
    frame_box animation_100_10 (mkLayout 2 5) 7 =
    Ok (region_of_cell animation_100_10 row column) /\
    7 = row * 2 + column /\
    0 <= row < 5 /\ 0 <= column < 2 /\
    box_inside (region_of_cell animation_100_10 row column)
      (packed_size animation_100_10 (mkLayout 2 5)).
Proof.
  apply (frame_box_row_major animation_100_10 (mkLayout 2 5) 7);
    simpl; lia.
Defined.



Lemma paste_frames_cells (a : Animation) (l : Layout) (indices : list Z) :
  1 <= columns l -> Forall (fun i => 0 <= i < 2 ^ 53) indices ->
  paste_frames a l indices =
  Ok (map (fun i => region_of_cell a (i / columns l) (i mod columns l))
          indices).
Proof.
  intros Hc Hall. induction Hall as [|i indices Hi Hall IH]; simpl;
    [reflexivity|].
  rewrite frame_box_cell by assumption. simpl. now rewrite IH.
Qed.

Lemma pasted_regions_cells (a : Animation) (l : Layout) :
  positive_layout l ->
  0 <= frame_width a -> 0 <= frame_height a ->
  columns l * rows l <= frame_count a -> frame_count a < 2 ^ 53 ->
  exists regions,
    pasted_regions a l = Ok regions /\
    length regions = Z.to_nat (columns l * rows l) /\
    Forall (fun b => box_inside b (packed_size a l)) regions /\
    (forall row column,
        0 <= row < rows l -> 0 <= column < columns l ->
        In (region_of_cell a row column) regions).
Proof.
  intros [Hc Hr] Hw Hh Hcap Hsmall. unfold pasted_regions.
  assert (Hlen : slice_length (frame_count a) (rows l * columns l) =
                 rows l * columns l).
  { unfold slice_length. destruct (Z.ltb_spec (rows l * columns l) 0); nia. }
  rewrite Hlen.
  assert (Hrange : forall i, In i (range 0 (rows l * columns l)) <->
                             0 <= i < rows l * columns l)
    by (intros i; apply In_range).
  rewrite paste_frames_cells;
    [| exact Hc | apply Forall_forall; intros i Hi; apply Hrange in Hi; lia].
  eexists. split; [reflexivity|]. split; [|split].
  - rewrite length_map, range_length. f_equal. lia.
  - apply Forall_forall. intros b Hb.
    apply in_map_iff in Hb as (i & <- & Hi). apply Hrange in Hi.
    destruct (cell_of_index i (columns l) (rows l) Hc Hi) as (_ & Hrow & Hcol).
    apply region_of_cell_inside; assumption.
  - intros row column Hrow Hcol. apply in_map_iff.
    exists (row * columns l + column).
    destruct (index_of_cell row column (columns l) Hcol) as [-> ->].
    split; [reflexivity|]. apply Hrange. nia.
Qed.

(** X12. For a layout with at least one column and one row that holds no
    more frames than there are (what the dense search returns), the loop
    pastes exactly [columns * rows] frames, every region lies inside the
    packed image, and every cell of the atlas receives a frame. *)
Theorem pasted_regions_tile (a : Animation) (l : Layout) :
  positive_layout l ->
  0 <= frame_width a -> 0 <= frame_height a ->
  columns l * rows l <= frame_count a -> frame_count a < 2 ^ 53 ->
  exists regions,
    pasted_regions a l = Ok regions /\
    length regions = Z.to_nat (columns l * rows l) /\
    Forall (fun b => box_inside b (packed_size a l)) regions /\
    (forall row column,
        0 <= row < rows l -> 0 <= column < columns l ->
        In (region_of_cell a row column) regions).
Proof. apply pasted_regions_cells. Qed.

Lemma pasted_regions_tile_witness :
  exists regions,
    pasted_regions animation_4000_3 (mkLayout 1 2) = Ok regions /\
    length regions = Z.to_nat (1 * 2) /\
    Forall (fun b => box_inside b
                       (packed_size animation_4000_3 (mkLayout 1 2)))
           regions /\
    (forall row column,
        0 <= row < 2 -> 0 <= column < 1 ->
        In (region_of_cell animation_4000_3 row column) regions).
Proof.
  apply (pasted_regions_tile animation_4000_3 (mkLayout 1 2));
    unfold positive_layout; simpl; lia.
Defined.

Lemma pack_animation_layout (a : Animation)
    (report : PackImagesV2.shortfall_report) :
  PackImagesV2.pack_animation a = Ok report ->
  match report with
  | PackImagesV2.NoSuitableLayout => True
  | PackImagesV2.NotShortened l =>
      PackImagesV2.compute_layout a false = Ok (Some l) /\
      rows l * columns l = frame_count a
  | PackImagesV2.RemoveOrAdd l removed _
  | PackImagesV2.RemoveOnly l removed =>
      PackImagesV2.compute_layout a false = Ok (Some l) /\
      rows l * columns l = frame_count a - removed
  end.
Proof.
  unfold PackImagesV2.pack_animation.
  destruct (PackImagesV2.compute_layout a false) as [[l|]|e] eqn:Hdense;
    simpl; [| |discriminate].
  - pose proof (compute_layout_dense_capacity a l Hdense) as Hcap.
    destruct (Z.ltb_spec (rows l * columns l) (frame_count a)).
    + destruct (PackImagesV2.compute_layout a true) as [[s|]|e]; simpl;
        [| |discriminate]; intros [= <-]; split; auto; lia.
    + intros [= <-]. split; [reflexivity | lia].
  - now intros [= <-].
Qed.

Lemma compute_layout_pasted (a : Animation) (l : Layout) :
  PackImagesV2.compute_layout a false = Ok (Some l) ->
  frame_count a < 2 ^ 53 ->
  exists regions,
    pasted_regions a l = Ok regions /\
    Z.of_nat (length regions) = rows l * columns l.
Proof.
  intros Hl Hsmall.
  destruct (compute_layout_In a false l Hl) as (g & Hg & Hin & Hd).
  destruct (grid_bounds_positive a g l Hg Hin) as [Hw Hh].
  apply (generate_layouts_bounds a g l Hg) in Hin as [Hc Hr].
  unfold PackImagesV2.is_dense in Hd.
  destruct (pasted_regions_cells a l) as (regions & Hrun & Hlen & _);
    try lia; [unfold positive_layout; lia|].
  exists regions. split; [exact Hrun|]. rewrite Hlen. nia.
Qed.

(** X18. The loop drops exactly the frames [pack_animation] announces: after
    a report of [removed] frames it pastes [frame_count - removed] frames,
    and without a message it pastes all [frame_count] frames. *)
Theorem pack_animation_pasted_count (a : Animation)
    (report : PackImagesV2.shortfall_report) :
  PackImagesV2.pack_animation a = Ok report ->
  frame_count a < 2 ^ 53 ->
  match report with
  | PackImagesV2.NoSuitableLayout => True
  | PackImagesV2.NotShortened l =>
      exists regions,
        pasted_regions a l = Ok regions /\
        Z.of_nat (length regions) = frame_count a
  | PackImagesV2.RemoveOrAdd l removed _
  | PackImagesV2.RemoveOnly l removed =>
      exists regions,
        pasted_regions a l = Ok regions /\
        Z.of_nat (length regions) = frame_count a - removed
  end.
Proof.
  intros Hrun Hsmall. apply pack_animation_layout in Hrun.
  destruct report as [|l|l removed add|l removed]; [exact I| | |];
    destruct Hrun as [Hl Hcap];
    destruct (compute_layout_pasted a l Hl Hsmall) as (regions & Hr & Hlen);
    exists regions; (split; [exact Hr | lia]).
Qed.

Lemma pack_animation_pasted_count_witness :
  exists regions,
    pasted_regions animation_2000_11 (mkLayout 2 5) = Ok regions /\
    Z.of_nat (length regions) = 11 - 1.
Proof.
  apply (pack_animation_pasted_count animation_2000_11
           (PackImagesV2.RemoveOrAdd (mkLayout 2 5) 1 1));
    reflexivity.
Defined.

End FramePlacement.

(** * More on the annealing search *)

Section EngineFacts.

Import PackImages.

Context {State : Type}.
Variable params : Engine.AnnealingParams State.
Variable draws : nat -> Draw.

Lemma anneal_step_best (d : Draw) (v v' : Engine.loop_vars State) :
  Engine.anneal_step params d v = Ok v' ->
  Engine.best_state v' = Engine.best_state v /\
  Engine.best_energy v' = Engine.best_energy v \/
  Engine.best_state v' =
  Engine.mutate_state params (Engine.current_state v) d /\
  Engine.best_energy v' =
  Engine.compute_energy params (Engine.best_state v') /\
  Engine.best_energy v' < Engine.best_energy v.
Proof.
  unfold Engine.anneal_step.
  destruct (Engine.accepts _ _ _ _) as [[|]|e]; simpl; [| |discriminate].
  - destruct (Z.ltb_spec
                (Engine.compute_energy params
                   (Engine.mutate_state params (Engine.current_state v) d))
                (Engine.best_energy v)); simpl;
      destruct (Engine.cool_temp params _); simpl; try discriminate;
      intros [= <-]; simpl; auto.
  - destruct (Engine.cool_temp params _); simpl; try discriminate.
    intros [= <-]; simpl; auto.
Qed.

Lemma anneal_loop_best (init : State) :
  forall (fuel turn : nat) (v : Engine.loop_vars State) (s : State),
    Engine.best_energy v =
    Engine.compute_energy params (Engine.best_state v) ->
    Engine.best_state v = init \/
    Engine.best_energy v < Engine.compute_energy params init /\
    (exists s' d, Engine.best_state v = Engine.mutate_state params s' d) ->
    Engine.anneal_loop fuel params draws turn v = Some (Ok s) ->
    s = init \/
    Engine.compute_energy params s < Engine.compute_energy params init /\
    (exists s' d, s = Engine.mutate_state params s' d).
Proof.
  induction fuel as [|fuel IH]; intros turn v s He Hbest Hrun;
    [discriminate|].
  simpl in Hrun.
  destruct (py_gt (Engine.current_temp v) (Engine.temp_min params)).
  - destruct (Engine.anneal_step params (draws turn) v) as [v'|e] eqn:Hstep;
      [|discriminate].
    assert (Hle : Engine.best_energy v <= Engine.compute_energy params init).
    { destruct Hbest as [<- | [Hlt _]]; lia. }
    apply anneal_step_best in Hstep as [[Hs Hb] | (Hs & Hb & Hlt)].
    + apply (IH (S turn) v' s); [| |exact Hrun]; rewrite ?Hs, ?Hb; assumption.
    + apply (IH (S turn) v' s); [exact Hb | | exact Hrun].
      right. split; [lia|]. rewrite Hs. eauto.
  - injection Hrun as <-. destruct Hbest as [H | [Hlt Hex]]; [auto|].
    right. split; [lia | exact Hex].
Qed.

(** X13. Whatever the parameters, [simulate_annealing] returns the initial
    state or a state of strictly lower energy that the mutation function
    produced: never a state that is worse than the one it started from. *)
Theorem simulate_annealing_never_worse (fuel : nat) (s : State) :
  Engine.simulate_annealing fuel params draws = Some (Ok s) ->
  s = Engine.initial_state params \/
  Engine.compute_energy params s <
  Engine.compute_energy params (Engine.initial_state params) /\
  (exists s' d, s = Engine.mutate_state params s' d).
Proof.
  unfold Engine.simulate_annealing. intros Hrun.
  apply (anneal_loop_best (Engine.initial_state params) _ _ _ s) in Hrun;
    simpl; auto.
Qed.

End EngineFacts.

Lemma simulate_annealing_never_worse_witness :
  mkLayout 1 1 = mkLayout 0 1 \/
  PackImages.compute_energy (mkLayout 1 1) animation_2_1_1 <
  PackImages.compute_energy (mkLayout 0 1) animation_2_1_1 /\
  (exists s' d,
      mkLayout 1 1 = PackImages.mutate_state s' animation_2_1_1 d).
Proof.
  apply (simulate_annealing_never_worse
           (PackImages.layout_params animation_2_1_1 (mkLayout 0 1))
           draws_more_columns layout_fuel (mkLayout 1 1)).
  vm_compute. reflexivity.
Defined.

Section LayoutInstanceFacts.

Import PackImages.

Lemma mutate_state_positive (a : Animation) (s : Layout) (d : Draw) :
  positive_layout s -> positive_layout (mutate_state s a d).
Proof.
  unfold positive_layout. intros [Hc Hr].
  destruct (mutate_state_cases s a d) as [-> | [Hv Hshape]]; [auto|].
  apply state_valid_spec in Hv as (Hr' & Hc' & _).
  destruct Hshape as [Hs | Hs]; rewrite Hs in Hr', Hc' |- *; simpl in *;
    destruct (choice d); simpl in *; lia.
Qed.

Lemma simulate_annealing_keeps_positive (a : Animation) (s0 s : Layout)
    (draws : nat -> Draw) (fuel : nat) :
  positive_layout s0 ->
  Engine.simulate_annealing fuel (layout_params a s0) draws = Some (Ok s) ->
  positive_layout s.
Proof.
  intros Hpos Hrun. rewrite simulate_annealing_unfold in Hrun.
  destruct (anneal_loop_layout_invariant a s0 draws
              (fun cur best => positive_layout cur /\ positive_layout best))
    with (fuel := fuel) (turn := 0%nat) (cur := s0) (best := s0)
         (t := PyInt 15) (s := s) as (cur' & _ & Hs); auto.
  intros d cur best cur' best' [Hcur Hbest] [Hc Hb].
  assert (Hc' : positive_layout cur').
  { destruct Hcur as [-> | ->]; [exact Hc|]. now apply mutate_state_positive. }
  split; [exact Hc'|]. destruct Hbest as [-> | [-> _]]; assumption.
Qed.

(** X14. From an initial state with at least one column and one row, every
    state the layout instance returns has at least one column and one row:
    the walk cannot cross zero, so the negative layouts that [state_valid]
    lets through are never reached. *)
Theorem simulate_annealing_positive (a : Animation) (s0 s : Layout)
    (draws : nat -> Draw) (fuel : nat) :
  positive_layout s0 ->
  Engine.simulate_annealing fuel (layout_params a s0) draws = Some (Ok s) ->
  positive_layout s.
Proof. apply simulate_annealing_keeps_positive. Qed.

Lemma simulate_annealing_positive_witness :
  positive_layout (mkLayout 3 3).
Proof.
  apply (simulate_annealing_positive animation_100_10 (mkLayout 3 3)
           (mkLayout 3 3) draws_fewer_columns layout_fuel).
  - unfold positive_layout. simpl. lia.
  - vm_compute. reflexivity.
Defined.

Lemma math_sqrt_zero : exists x, math_sqrt 0 = Ok x.
Proof. eexists. vm_compute. reflexivity. Qed.

(** X15. [make_initial_state], and with it the annealing [compute_layout]
    before any turn of the loop, raises on degenerate descriptors:
    [ZeroDivisionError] for a zero frame width, some exception for a zero
    frame height, [ValueError] for a negative pixel count that has a float,
    and [OverflowError] for a pixel count that has none. *)
Theorem make_initial_state_raises (a : Animation) :
  let pixels := frame_width a * frame_height a * frame_count a in
  (frame_width a = 0 ->
   forall fuel draws,
     compute_layout fuel a draws = Some (Raise ZeroDivisionError)) /\
  (frame_height a = 0 ->
   exists e, forall fuel draws, compute_layout fuel a draws = Some (Raise e))
  /\
  (pixels < 0 -> - DBL_OVERFLOW < pixels ->
   forall fuel draws, compute_layout fuel a draws = Some (Raise ValueError))
  /\
  (DBL_OVERFLOW <= Z.abs pixels ->
   forall fuel draws,
     compute_layout fuel a draws = Some (Raise OverflowError)).
Proof.
  intros pixels.
  assert (Hraise : forall e,
             make_initial_state a = Raise e ->
             forall fuel draws, compute_layout fuel a draws = Some (Raise e)).
  { intros e He fuel draws. unfold compute_layout. now rewrite He. }
  split; [|split; [|split]].
  - intros Hw. apply Hraise. unfold make_initial_state. rewrite Hw.
    change (0 * frame_height a * frame_count a) with 0.
    destruct math_sqrt_zero as [x ->]. reflexivity.
  - intros Hh.
    assert (He : exists e, make_initial_state a = Raise e).
    { unfold make_initial_state. rewrite Hh.
      replace (frame_width a * 0 * frame_count a) with 0 by lia.
      destruct math_sqrt_zero as [x ->]. cbn [bind].
      destruct (float_truediv_int x (frame_width a)) as [q|e];
        cbn [bind]; [|eauto].
      destruct (int_of_float q) as [c|e]; cbn [bind]; [|eauto].
      exists ZeroDivisionError. reflexivity. }
    destruct He as [e He]. exists e. now apply Hraise.
  - intros Hneg Hfloat. apply Hraise. unfold make_initial_state.
    fold pixels. unfold math_sqrt, float_of_int.
    destruct (Z.leb_spec DBL_OVERFLOW (Z.abs pixels)); [lia|]. cbn [bind].
    destruct (Z.ltb_spec pixels 0); [reflexivity | lia].
  - intros Hbig. apply Hraise. unfold make_initial_state.
    fold pixels. unfold math_sqrt, float_of_int.
    destruct (Z.leb_spec DBL_OVERFLOW (Z.abs pixels)); [reflexivity | lia].
Qed.

Lemma make_initial_state_raises_witness :
  (forall fuel draws,
      compute_layout fuel (mkAnimation 0 100 10 24%float) draws =
      Some (Raise ZeroDivisionError)) /\
  (exists e,
      forall fuel draws,
        compute_layout fuel (mkAnimation 100 0 10 24%float) draws =
        Some (Raise e)) /\
  (forall fuel draws,
      compute_layout fuel (mkAnimation (-100) 100 10 24%float) draws =
      Some (Raise ValueError)) /\
  (forall fuel draws,
      compute_layout fuel (mkAnimation (2 ^ 1024) 1 1 24%float) draws =
      Some (Raise OverflowError)).
Proof.
  split; [|split; [|split]].
  - apply (proj1 (make_initial_state_raises (mkAnimation 0 100 10 24%float))).
    reflexivity.
  - apply (proj1 (proj2 (make_initial_state_raises
                           (mkAnimation 100 0 10 24%float)))).
    reflexivity.
  - apply (proj1 (proj2 (proj2 (make_initial_state_raises
                                  (mkAnimation (-100) 100 10 24%float)))));
      reflexivity.
  - apply (proj2 (proj2 (proj2 (make_initial_state_raises
                                  (mkAnimation (2 ^ 1024) 1 1 24%float))))).
    apply Z.leb_le. vm_compute. reflexivity.
Defined.

Lemma anneal_loop_layout_ends (a : Animation) (s0 : Layout)
    (draws : nat -> Draw) :
  forall (fuel turn : nat) (cur best : Layout) (t : pynum),
    schedule_ok fuel t = true ->
    exists r,
      Engine.anneal_loop fuel (layout_params a s0) draws turn
        (layout_vars a cur best t) = Some r.
Proof.
  induction fuel as [|fuel IH]; intros turn cur best t Hok; [discriminate|].
  simpl in *. destruct (py_gt t (PyFloat 0.001)); [|eauto].
  apply andb_prop in Hok as [_ Hok].
  destruct (py_sub t (PyFloat 0.001)) as [t'|e] eqn:Hcool; [|discriminate].
  destruct (Engine.anneal_step (layout_params a s0) (draws turn)
              (layout_vars a cur best t)) as [v'|e] eqn:Hstep; [|eauto].
  apply anneal_step_layout in Hstep
    as (cur' & best' & t'' & -> & Hcool' & _).
  rewrite Hcool in Hcool'. injection Hcool' as <-. now apply IH.
Qed.

Lemma anneal_loop_layout_draws (a : Animation) (s0 : Layout)
    (d1 d2 : nat -> Draw) :
  forall (fuel turn : nat) (cur best : Layout) (t : pynum),
    schedule_ok fuel t = true ->
    (forall i, (turn <= i < turn + (fuel - 1))%nat -> d1 i = d2 i) ->
    Engine.anneal_loop fuel (layout_params a s0) d1 turn
      (layout_vars a cur best t) =
    Engine.anneal_loop fuel (layout_params a s0) d2 turn
      (layout_vars a cur best t).
Proof.
  induction fuel as [|fuel IH]; intros turn cur best t Hok Hd;
    [discriminate|].
  simpl in *. destruct (py_gt t (PyFloat 0.001)); [|reflexivity].
  apply andb_prop in Hok as [_ Hok].
  destruct (py_sub t (PyFloat 0.001)) as [t'|e] eqn:Hcool; [|discriminate].
  assert (Hfuel : (1 <= fuel)%nat) by (destruct fuel; [discriminate | lia]).
  rewrite <- (Hd turn) by lia.
  destruct (Engine.anneal_step (layout_params a s0) (d1 turn)
              (layout_vars a cur best t)) as [v'|e] eqn:Hstep;
    [|reflexivity].
  apply anneal_step_layout in Hstep
    as (cur' & best' & t'' & -> & Hcool' & _).
  rewrite Hcool in Hcool'. injection Hcool' as <-.
  apply IH; [exact Hok|]. intros i Hi. apply Hd. lia.
Qed.

(** X16. For every animation, initial state and sequence of draws, the
    layout instance leaves its loop, with a state or with an exception, and
    its outcome depends on the draws of the first 15000 turns only. *)
Theorem simulate_annealing_draws (a : Animation) (s0 : Layout)
    (d1 d2 : nat -> Draw) (fuel : nat) :
  (layout_fuel <= fuel)%nat ->
  (forall i, (i < Z.to_nat 15000)%nat -> d1 i = d2 i) ->
  exists r,
    Engine.simulate_annealing fuel (layout_params a s0) d1 = Some r /\
    Engine.simulate_annealing fuel (layout_params a s0) d2 = Some r.
Proof.
  intros Hfuel Hd. rewrite !simulate_annealing_unfold.
  destruct (anneal_loop_layout_ends a s0 d1 layout_fuel 0 s0 s0 (PyInt 15)
              layout_schedule_ok) as [r Hr].
  exists r. split.
  - exact (anneal_loop_more_fuel _ _ _ _ _ _ _ Hr Hfuel).
  - apply (anneal_loop_more_fuel _ _ layout_fuel); [|exact Hfuel].
    rewrite <- Hr. symmetry.
    apply anneal_loop_layout_draws; [exact layout_schedule_ok|].
    intros i Hi. apply Hd. unfold layout_fuel in Hi. lia.
Qed.

Lemma simulate_annealing_draws_witness :
  exists r,
    Engine.simulate_annealing layout_fuel
      (layout_params animation_2_1_1 (mkLayout 0 1)) draws_more_columns =
    Some r /\
    Engine.simulate_annealing layout_fuel
      (layout_params animation_2_1_1 (mkLayout 0 1))
      (fun i => if (i <? Z.to_nat 15000)%nat then mkDraw increment true false
                else mkDraw decrement false true) = Some r.
Proof.
  apply (simulate_annealing_draws animation_2_1_1 (mkLayout 0 1));
    [apply le_n|].
  intros i Hi. unfold draws_more_columns.
  destruct (Nat.ltb_spec i (Z.to_nat 15000)); [reflexivity|]. lia.
Defined.

End LayoutInstanceFacts.

(** * The two searches compared *)

Section SearchesCompared.

Lemma valid_positive_generated (a : Animation) (s : Layout) :
  1 <= frame_width a -> 1 <= frame_height a ->
  positive_layout s -> PackImages.state_valid s a = true ->
  exists g,
    PackImagesV2.generate_layouts a = Ok g /\ In s g /\
    PackImagesV2.is_dense a s = true.
Proof.
  intros Hw Hh [Hc Hr] Hv.
  apply state_valid_spec in Hv as (_ & _ & Hwidth & Hheight & Hcap).
  destruct (generate_layouts_returns a) as [g Hg]; [lia | lia |].
  exists g. split; [exact Hg|]. split.
  - apply (generate_layouts_bounds a g s Hg). unfold max_columns, max_rows.
    rewrite !Z.quot_div_nonneg by lia.
    split; (split; [lia|]); apply Z.div_le_lower_bound; lia.
  - unfold PackImagesV2.is_dense. lia.
Qed.

Lemma generated_dense_valid (a : Animation) (g : list Layout) (l : Layout) :
  PackImagesV2.generate_layouts a = Ok g -> In l g ->
  PackImagesV2.is_dense a l = true ->
  PackImages.state_valid l a = true.
Proof.
  intros Hg Hl Hd.
  destruct (grid_bounds_positive a g l Hg Hl) as [Hw Hh].
  apply (generate_layouts_bounds a g l Hg) in Hl as [Hc Hr].
  unfold max_columns, max_rows in *.
  rewrite Z.quot_div_nonneg in Hc, Hr by lia.
  pose proof (Z.mul_div_le 11000 (frame_width a) ltac:(lia)).
  pose proof (Z.mul_div_le 11000 (frame_height a) ltac:(lia)).
  unfold PackImagesV2.is_dense in Hd.
  apply state_valid_spec. repeat split; try lia; nia.
Qed.

(** X17. The exhaustive search is at least as good as the annealing one:
    for frames of at least one pixel each way and a valid initial state with
    at least one column and one row, whatever state the annealing returns,
    the dense exhaustive search returns a layout that passes [state_valid]
    and leaves out no more frames (its energy is at most the annealing
    result's). *)
Theorem exhaustive_dominates_annealing (a : Animation) (s0 s : Layout)
    (draws : nat -> PackImages.Draw) (fuel : nat) :
  1 <= frame_width a -> 1 <= frame_height a ->
  positive_layout s0 -> PackImages.state_valid s0 a = true ->
  PackImages.Engine.simulate_annealing fuel
    (PackImages.layout_params a s0) draws = Some (Ok s) ->
  exists l,
    PackImagesV2.compute_layout a false = Ok (Some l) /\
    PackImages.state_valid l a = true /\
    PackImages.compute_energy l a <= PackImages.compute_energy s a.
Proof.
  intros Hw Hh Hpos Hvalid Hrun.
  pose proof (simulate_annealing_keeps_positive a s0 s draws fuel Hpos Hrun)
    as Hspos.
  assert (Hsvalid : PackImages.state_valid s a = true).
  { destruct (simulate_annealing_improved a s0 draws fuel s Hrun)
      as [-> | [Hv _]]; assumption. }
  destruct (valid_positive_generated a s Hw Hh Hspos Hsvalid)
    as (g & Hg & Hin & Hdense).
  destruct (compute_layout_Some_nonempty a false g s Hg Hin Hdense)
    as [l Hl].
  exists l. split; [exact Hl|].
  destruct (compute_layout_In a false l Hl) as (g' & Hg' & Hlin & Hld).
  rewrite Hg in Hg'. injection Hg' as <-.
  split; [exact (generated_dense_valid a g l Hg Hlin Hld)|].
  unfold PackImagesV2.is_dense in Hdense.
  pose proof (compute_layout_dense_max a l s g Hl Hg Hin ltac:(lia)).
  unfold PackImages.compute_energy. lia.
Qed.

Lemma exhaustive_dominates_annealing_witness :
  exists l,
    PackImagesV2.compute_layout animation_4000_3 false = Ok (Some l) /\
    PackImages.state_valid l animation_4000_3 = true /\
    PackImages.compute_energy l animation_4000_3 <=
    PackImages.compute_energy (mkLayout 1 1) animation_4000_3.
Proof.
  apply (exhaustive_dominates_annealing animation_4000_3 (mkLayout 1 1)
           (mkLayout 1 1) draws_fewer_columns layout_fuel).
  - simpl. lia.
  - simpl. lia.
  - unfold positive_layout. simpl. lia.
  - reflexivity.
  - vm_compute. reflexivity.
Defined.

End SearchesCompared.
